(** * Sat Norte de Minas Gerais: the image refresh service of [main.py]

    A shallow embedding of [main.py]: the download of the satellite image
    ([get_gibs_image]), the background refresh loop
    ([atualizar_periodicamente]) and the endpoint that serves the image
    ([get_image]), with the properties of the service proved about them.

    The file system is a finite map from paths to byte strings, the
    network and the disk are an environment handed to each download, output
    and waiting are events appended to a trace, and Python exceptions are
    the [Raise] results of a small state-and-error monad. *)

From stdpp Require Import gmap strings list fin_maps pretty.
From Stdlib Require Import ZArith Strings.Byte Strings.Ascii Strings.String.

Open Scope string_scope.
Open Scope N_scope.

(** ** Text helpers *)

Abbreviation bytes := (list byte).

(** One decimal digit as a character. *)
Definition digit (n : N) : ascii := ascii_of_N (48 + n mod 10).

(** [%02d] and [%04d] of the C formatter, for values that fit. *)
Definition pad2 (n : N) : string :=
  String (digit (n / 10)) (String (digit n) "").

Definition pad4 (n : N) : string :=
  String (digit (n / 1000)) (String (digit (n / 100)) (pad2 n)).

(** The value of a decimal digit character. *)
Definition digit_val (c : ascii) : option N :=
  let k := N_of_ascii c in
  if (48 <=? k) && (k <=? 57) then Some (k - 48) else None.

Fixpoint number_of (s : string) (acc : N) : option N :=
  match s with
  | "" => Some acc
  | String c s' =>
      match digit_val c with
      | Some v => number_of s' (10 * acc + v)
      | None => None
      end
  end.

(** [s.split(sep)] for a one-character separator. *)
Fixpoint split_on (sep : ascii) (s : string) : list string :=
  match s with
  | "" => [""]
  | String c s' =>
      if Ascii.eqb c sep then "" :: split_on sep s'
      else match split_on sep s' with
           | [] => [String c ""]
           | h :: t => String c h :: t
           end
  end.

(** [s.partition(sep)]: the text before and after the first separator. *)
Fixpoint cut_at (sep : ascii) (s : string) : option (string * string) :=
  match s with
  | "" => None
  | String c s' =>
      if Ascii.eqb c sep then Some ("", s')
      else match cut_at sep s' with
           | Some (k, v) => Some (String c k, v)
           | None => None
           end
  end.

Fixpoint occurs (sep : ascii) (s : string) : bool :=
  match s with
  | "" => false
  | String c s' => Ascii.eqb c sep || occurs sep s'
  end.

(** ** Dates and the bounding box *)

(** The calendar part of [datetime.utcnow()], the only part the format
    [%Y-%m-%d] looks at. *)
Record datetime := mk_datetime { year : N; month : N; day : N }.

(** What [datetime] itself guarantees of its fields, with four-digit years. *)
Definition valid_date (d : datetime) : Prop :=
  1000 <= year d <= 9999 /\ 1 <= month d <= 12 /\ 1 <= day d <= 31.

(** [d.strftime("%Y-%m-%d")] *)
Definition strftime (d : datetime) : string :=
  pad4 (year d) ++ "-" ++ pad2 (month d) ++ "-" ++ pad2 (day d).

(** Reading [YYYY-MM-DD] back. *)
Definition strptime (s : string) : option datetime :=
  match split_on "-" s with
  | [y; m; d] =>
      if (String.length y =? 4)%nat && (String.length m =? 2)%nat
         && (String.length d =? 2)%nat then
        match number_of y 0, number_of m 0, number_of d 0 with
        | Some y', Some m', Some d' => Some (mk_datetime y' m' d')
        | _, _, _ => None
        end
      else None
  | _ => None
  end.

(** The bounds are float literals with one decimal digit.  Such a float is
    printed by an f-string as the literal it was read from, so a bound is
    kept as its number of tenths of a degree. *)
Record degrees := tenths_of_degree { tenths : Z }.

Definition float_str (x : degrees) : string :=
  (if (tenths x <? 0)%Z then "-" else "")
  ++ pretty (Z.abs (tenths x) / 10)%Z ++ "." ++ pretty (Z.abs (tenths x) mod 10)%Z.

(* BBOX para a região de Norte de Minas Gerais *)
Definition LON_MIN : degrees := tenths_of_degree (-465).
Definition LAT_MIN : degrees := tenths_of_degree (-175).
Definition LON_MAX : degrees := tenths_of_degree (-420).
Definition LAT_MAX : degrees := tenths_of_degree (-140).

(** The f-string of [get_gibs_image], lines 35 to 41. *)
Definition gibs_url (date_str : string) : string :=
  "https://gibs.earthdata.nasa.gov/wms/epsg4326/best/wms.cgi?SERVICE=WMS"
  ++ "&REQUEST=GetMap&VERSION=1.3.0&LAYERS=VIIRS_SNPP_CorrectedReflectance_TrueColor"
  ++ "&STYLES=&FORMAT=image/jpeg&TRANSPARENT=FALSE&HEIGHT=800&WIDTH=800"
  ++ "&CRS=EPSG:4326&BBOX=" ++ float_str LON_MIN ++ "," ++ float_str LAT_MIN
  ++ "," ++ float_str LON_MAX ++ "," ++ float_str LAT_MAX
  ++ "&TIME=" ++ date_str.

(** The query parameters a server reads off a URL: what follows the [?],
    cut at every [&], each piece cut at its first [=]. *)
Definition query_params (url : string) : list (string * string) :=
  match cut_at "?" url with
  | Some (_, q) => omap (cut_at "=") (split_on "&" q)
  | None => []
  end.

Fixpoint assoc_get (k : string) (l : list (string * string)) : option string :=
  match l with
  | [] => None
  | (k', v) :: l' => if String.eqb k k' then Some v else assoc_get k l'
  end.

Definition url_param (k url : string) : option string :=
  assoc_get k (query_params url).

(** ** Exceptions, the world and the monad *)

(** The exceptions the calls of [main.py] raise, all of them subclasses of
    [Exception]: those of [requests.get] (a DNS failure or a refused
    connection is a [ConnectionError]) and those of [open] and [write]. *)
Inductive exn :=
| ConnectionError (msg : string)
| Timeout (msg : string)
| RequestException (msg : string)
| OSError (msg : string)
| FileNotFoundError (msg : string).

(** [str(e)] *)
Definition exn_str (e : exn) : string :=
  match e with
  | ConnectionError m | Timeout m | RequestException m
  | OSError m | FileNotFoundError m => m
  end.

Inductive result (A : Type) :=
| Ok (a : A)
| Raise (e : exn).
Arguments Ok {A} a.
Arguments Raise {A} e.

(** What the process does to the outside, in order. *)
Inductive event :=
| Print (line : string)
| HttpGet (url : string)
| Sleep (seconds : Z).

(** The files on disk and the events so far. *)
Record World := mk_world { files : gmap string bytes; trace : list event }.

Definition M (A : Type) : Type := World -> World * result A.

#[export] Instance M_ret : MRet M := fun A a w => (w, Ok a).

#[export] Instance M_bind : MBind M := fun A B f m w =>
  match m w with
  | (w', Ok a) => f a w'
  | (w', Raise e) => (w', Raise e)
  end.

(** [try: body  except Exception as e: handler(e)] *)
Definition try_except {A} (body : M A) (handler : exn -> M A) : M A := fun w =>
  match body w with
  | (w', Ok a) => (w', Ok a)
  | (w', Raise e) => handler e w'
  end.

Definition emit (ev : event) : M unit := fun w =>
  (mk_world (files w) (trace w ++ [ev]), Ok tt).

(** [print(line)] on a standard output that takes the line; [print_on],
    further down, is the [print] that can raise. *)
Definition print (line : string) : M unit := emit (Print line).

(** [time.sleep(seconds)] *)
Definition time_sleep (seconds : Z) : M unit := emit (Sleep seconds).

(** ** The environment of one download *)

(** A response of [requests.get]. *)
Record http_response := mk_response { status_code : Z; content : bytes }.

(** How the disk behaves on [open(path, "wb")] followed by [f.write]:
    both succeed, [open] raises and leaves the file alone, or [open]
    succeeds, leaving an empty file, and the write raises after [written]
    bytes. *)
Inductive disk_behaviour :=
| DiskOk
| OpenRaises (e : exn)
| WriteRaises (e : exn) (written : nat).

Record Env := mk_env {
  utcnow : datetime;
  provider : string -> result http_response;
  disk : disk_behaviour
}.

(** [requests.get(url)] *)
Definition requests_get (env : Env) (url : string) : M http_response := fun w =>
  (mk_world (files w) (trace w ++ [HttpGet url]), provider env url).

(** [with open(path, "wb") as f: f.write(data)] *)
Definition write_file (env : Env) (path : string) (data : bytes) : M unit := fun w =>
  match disk env with
  | DiskOk => (mk_world (<[path := data]> (files w)) (trace w), Ok tt)
  | OpenRaises e => (w, Raise e)
  | WriteRaises e written =>
      (mk_world (<[path := take written data]> (files w)) (trace w), Raise e)
  end.

(** [path.exists()] *)
Definition path_exists (path : string) : M bool := fun w =>
  (w, Ok (bool_decide (is_Some (files w !! path)))).

(** [with open(path, "rb") as f: content = f.read()] *)
Definition read_file (path : string) : M bytes := fun w =>
  match files w !! path with
  | Some data => (w, Ok data)
  | None => (w, Raise (FileNotFoundError path))
  end.

(** [a / b] on paths. *)
Definition joinpath (a b : string) : string := a ++ "/" ++ b.

(** What a FastAPI path operation returns: a [Response] object or a dict. *)
Inductive handler_result :=
| Response (content : bytes) (media_type : string)
| Dict (items : list (string * string)).

(** The HTTP reply FastAPI sends for it.  A [Response] built without a
    status code has status 200; a dict is sent as a JSON object with
    status 200. *)
Inductive reply_body :=
| Raw (data : bytes)
| Json (items : list (string * string)).

Record http_reply := mk_reply {
  reply_status : Z;
  reply_content_type : string;
  reply_body_of : reply_body
}.

Definition fastapi_reply (r : handler_result) : http_reply :=
  match r with
  | Response data media_type => mk_reply 200 media_type (Raw data)
  | Dict items => mk_reply 200 "application/json" (Json items)
  end.

(** ** Sample inputs *)

Definition jpeg_header : bytes := [Byte.xff; Byte.xd8; Byte.xff; Byte.xe0].

Definition a_day : datetime := mk_datetime 2024 3 7.

(** An environment whose provider answers every request with [status] and
    [body], on a disk that behaves as [d]. *)
Definition answering (status : Z) (body : bytes) (d : disk_behaviour) : Env :=
  mk_env a_day (fun _ => Ok (mk_response status body)) d.

(** An environment whose request times out. *)
Definition timing_out : Env :=
  mk_env a_day (fun _ => Raise (Timeout "Read timed out.")) DiskOk.

(** No file at all, nothing done yet. *)
Definition empty_disk : World := mk_world ∅ [].

(** ** The service *)

Section Service.

(** [Path(__file__).parent] *)
Variable BASE_DIR : string.

Definition DATA_DIR : string := joinpath BASE_DIR "data".

Definition image_path : string := joinpath DATA_DIR "satellite_image.jpg".

(** The body of the [try] of [get_gibs_image], lines 31 to 53. *)
Definition download (env : Env) : M bool :=
  let date_str := strftime (utcnow env) in
  response ← requests_get env (gibs_url date_str);
  if (status_code response =? 200)%Z then
    write_file env image_path (content response);;
    print "✅ Download da imagem do satélite concluído.";;
    mret true
  else
    print ("❌ Erro ao baixar a imagem da NASA GIBS: "
           ++ pretty (status_code response));;
    mret false.

(** Its [except Exception as e] clause, lines 55 to 57. *)
Definition on_exception (e : exn) : M bool :=
  print ("❌ Erro na requisição ao GIBS: " ++ exn_str e);;
  mret false.

(** [get_gibs_image], lines 25 to 57. *)
Definition get_gibs_image (env : Env) : M bool :=
  print "🚀 Iniciando o download da imagem da NASA GIBS...";;
  try_except (download env) on_exception.

(** [atualizar_periodicamente], lines 60 to 66: [while True], run for as
    many rounds as there are environments, one per download.  It has no
    [return] and no [break]: [Ok] means the loop is still going after
    these rounds, [Raise] that an exception ended it. *)
Fixpoint atualizar_periodicamente (envs : list Env) : M unit :=
  match envs with
  | [] => mret tt
  | env :: later =>
      get_gibs_image env;;
      time_sleep (4 * 3600);;
      atualizar_periodicamente later
  end.

(** [get_image], lines 81 to 92. *)
Definition get_image : M handler_result :=
  found ← path_exists image_path;
  if found : bool then
    data ← read_file image_path;
    mret (Response data "image/jpeg")
  else
    mret (Dict [("error", "Imagem não encontrada.")]).

(** The reply to [GET /api/image.jpg] in a world, when the handler returns. *)
Definition GET_image (w : World) : result http_reply :=
  match get_image w with
  | (_, Ok r) => Ok (fastapi_reply r)
  | (_, Raise e) => Raise e
  end.

(** The reads of [n] requests in a row, nothing else running in between. *)
Fixpoint repeat_get_image (n : nat) (w : World) : list (result handler_result) :=
  match n with
  | O => []
  | S n' => let (w', r) := get_image w in r :: repeat_get_image n' w'
  end.

(** The URL a download asks the provider for. *)
Definition request_url (env : Env) : string := gibs_url (strftime (utcnow env)).

(** A download that fails the way the provider can make it fail: a status
    other than 200, or an exception out of [requests.get]. *)
Definition provider_fails (env : Env) : Prop :=
  match provider env (request_url env) with
  | Ok response => status_code response <> 200%Z
  | Raise _ => True
  end.

(** The provider answers 200. *)
Definition provider_200 (env : Env) : Prop :=
  exists response,
    provider env (request_url env) = Ok response /\ status_code response = 200%Z.

(** The URLs of the requests in a trace. *)
Definition requests_in (tr : list event) : list string :=
  omap (fun ev => match ev with HttpGet url => Some url | _ => None end) tr.

(** The waits in a trace. *)
Definition sleeps_in (tr : list event) : list Z :=
  omap (fun ev => match ev with Sleep s => Some s | _ => None end) tr.

(** The events of one download: the opening line, one request, one closing
    line. *)
Definition one_download (evs : list event) : Prop :=
  exists url line,
    evs = [Print "🚀 Iniciando o download da imagem da NASA GIBS...";
           HttpGet url; Print line].

(** ** A download and a request running at the same time

    The refresh thread replaces the image in three steps: line 47 opens
    the file for writing, which creates it or cuts it to length zero;
    line 48 writes the body, whose bytes reach the file in order, in one
    piece or in several; the end of the [with] block closes the file.
    The request handler tests [exists()] (line 87), opens the file (line
    88) and reads it (line 89): [f.read()] asks the file again and again
    for what follows the bytes it already has, until a call comes back
    empty.  Pieces and calls of any size interleave in any order.  A
    schedule says whose turn it is, how many bytes the turn moves at most
    ([S n]), and which calls of the handler the disk makes fail. *)

Inductive move :=
| Refresher (n : nat)
| Handler (n : nat)
| HandlerFails (e : exn).

Inductive writer_pc :=
| AtOpen (data : bytes)
| AtWrite (rest : bytes)
| Stored.

Inductive reader_pc :=
| AtExists
| AtOpenRb
| AtRead (buffer : bytes)
| Returned (r : handler_result)
| Raised (e : exn).

Record conf := mk_conf {
  conf_files : gmap string bytes;
  writer : writer_pc;
  reader : reader_pc
}.

(** The bytes of the image file, none when there is no file. *)
Definition image_now (fs : gmap string bytes) : bytes :=
  default [] (fs !! image_path).

Definition writer_step (n : nat) (c : conf) : conf :=
  match writer c with
  | AtOpen data =>
      mk_conf (<[image_path := []]> (conf_files c)) (AtWrite data) (reader c)
  | AtWrite [] => mk_conf (conf_files c) Stored (reader c)
  | AtWrite rest =>
      mk_conf (<[image_path := (image_now (conf_files c) ++ take (S n) rest)%list]>
                 (conf_files c))
        (AtWrite (drop (S n) rest)) (reader c)
  | Stored => c
  end.

Definition reader_step (n : nat) (c : conf) : conf :=
  match reader c with
  | AtExists =>
      if bool_decide (is_Some (conf_files c !! image_path))
      then mk_conf (conf_files c) (writer c) AtOpenRb
      else mk_conf (conf_files c) (writer c)
             (Returned (Dict [("error", "Imagem não encontrada.")]))
  | AtOpenRb =>
      match conf_files c !! image_path with
      | Some _ => mk_conf (conf_files c) (writer c) (AtRead [])
      | None => mk_conf (conf_files c) (writer c)
                  (Raised (FileNotFoundError image_path))
      end
  | AtRead buffer =>
      match drop (List.length buffer) (image_now (conf_files c)) with
      | [] => mk_conf (conf_files c) (writer c)
                (Returned (Response buffer "image/jpeg"))
      | more => mk_conf (conf_files c) (writer c)
                  (AtRead (buffer ++ take (S n) more)%list)
      end
  | Returned _ | Raised _ => c
  end.

(** A call of the handler that the disk makes fail with [e]. *)
Definition reader_fails (e : exn) (c : conf) : conf :=
  match reader c with
  | AtExists | AtOpenRb | AtRead _ => mk_conf (conf_files c) (writer c) (Raised e)
  | Returned _ | Raised _ => c
  end.

Definition step (m : move) (c : conf) : conf :=
  match m with
  | Refresher n => writer_step n c
  | Handler n => reader_step n c
  | HandlerFails e => reader_fails e c
  end.

Fixpoint run (schedule : list move) (c : conf) : conf :=
  match schedule with
  | [] => c
  | m :: later => run later (step m c)
  end.

(** A replace with [data] about to start and a read about to start. *)
Definition both_start (fs : gmap string bytes) (data : bytes) : conf :=
  mk_conf fs (AtOpen data) AtExists.

(** The first [j] bytes of [old], then [n] bytes of [new] from offset [j]
    on: what a read holds when it got [j] bytes before the file was cut
    and [n] bytes after. *)
Definition old_then_new (old new : bytes) (j n : nat) : bytes :=
  (take j old ++ take n (drop j new))%list.

(** What a read returns when it runs alone on the files [fs]. *)
Definition read_alone (fs : gmap string bytes) : result handler_result :=
  (get_image (mk_world fs [])).2.


(** The not-available reply. *)
Definition not_available : http_reply :=
  mk_reply 200 "application/json" (Json [("error", "Imagem não encontrada.")]).

(** The reply that carries an image. *)
Definition image_reply (data : bytes) : http_reply :=
  mk_reply 200 "image/jpeg" (Raw data).


(** What holds of every configuration a replace with [data] and a read,
    started together on the files [fs], can reach. *)
Definition reachable_shape (fs : gmap string bytes) (data : bytes) (c : conf) : Prop :=
  match writer c with
  | AtOpen d => d = data /\ conf_files c !! image_path = fs !! image_path
  | AtWrite rest =>
      exists written, data = (written ++ rest)%list
                      /\ conf_files c !! image_path = Some written
  | Stored => conf_files c !! image_path = Some data
  end /\
  match reader c with
  | AtExists | AtOpenRb | Raised _ => True
  | AtRead buffer =>
      exists j n, (j <= List.length (image_now fs))%nat
                  /\ List.length buffer = (j + n)%nat
                  /\ buffer = old_then_new (image_now fs) data j n
                  /\ ((exists d, writer c = AtOpen d) -> n = O)
  | Returned r =>
      (r = Dict [("error", "Imagem não encontrada.")] /\ fs !! image_path = None)
      \/ exists j n, (j <= List.length (image_now fs))%nat
                     /\ r = Response (old_then_new (image_now fs) data j n)
                              "image/jpeg"
  end.



(** A world with nothing but an image file holding [data], and nothing
    done yet: the process has just started. *)
Definition disk_with (data : bytes) : World :=
  mk_world {[image_path := data]} [].

(** ** What a round does to the files *)

(** The files after one download, read off the cases of [get_gibs_image]. *)
Definition files_after (env : Env) (fs : gmap string bytes) : gmap string bytes :=
  match provider env (request_url env) with
  | Ok response =>
      if (status_code response =? 200)%Z then
        match disk env with
        | DiskOk => <[image_path := content response]> fs
        | OpenRaises _ => fs
        | WriteRaises _ written => <[image_path := take written (content response)]> fs
        end
      else fs
  | Raise _ => fs
  end.

(** ** The port, lines 99 to 102 *)

(** What [os.environ.get(key, default)] returns when the default is an
    integer: the text of the variable, or that integer. *)
Inductive str_or_int :=
| Str (s : string)
| Int (n : Z).

Definition environ_get (environ : gmap string string) (key : string) (default : Z)
  : str_or_int :=
  match environ !! key with
  | Some s => Str s
  | None => Int default
  end.

(** [int(x)].  On an integer it is that integer.  On text it is what the
    builtin makes of the text, taken here as [int_of_str], with [None] for
    the [ValueError] it raises on text that is no integer. *)
Definition int (int_of_str : string -> option Z) (x : str_or_int) : option Z :=
  match x with
  | Str s => int_of_str s
  | Int n => Some n
  end.

(** [a or b] on integers: [b] when [a] is zero. *)
Definition int_or (a b : Z) : Z := if (a =? 0)%Z then b else a.

(** [port = int(os.environ.get("PORT", 0)) or 8000] *)
Definition port (int_of_str : string -> option Z) (environ : gmap string string)
  : option Z :=
  n ← int int_of_str (environ_get environ "PORT" 0);
  Some (int_or n 8000).

(** ** The refresh thread and the request handlers, all together

    [startup_event] starts [atualizar_periodicamente] in a thread of its
    own, which then runs beside the handlers of the requests for as long as
    the process lives.  Of the statements of a round only the replace of
    lines 47 and 48 touches the files, as [writer_step] has it; the request
    of line 43 decides whether it runs and with which bytes.  Each handler
    runs the statements of [reader_step], and the disk can make any of its
    calls fail. *)

Inductive refresher_pc :=
| Requesting
| Replacing (wr : writer_pc).

Record system := mk_system {
  sys_files : gmap string bytes;
  sys_envs : list Env;
  refresher : refresher_pc;
  handlers : list reader_pc
}.

(** What the request of a round leaves the refresh thread to do: nothing
    when the provider fails or [open] will raise, a replace otherwise, with
    the whole body or, when the write will raise, with the bytes that get
    written before it does. *)
Definition after_request (env : Env) : refresher_pc :=
  match provider env (request_url env) with
  | Ok response =>
      if (status_code response =? 200)%Z then
        match disk env with
        | DiskOk => Replacing (AtOpen (content response))
        | OpenRaises _ => Requesting
        | WriteRaises _ written =>
            Replacing (AtOpen (take written (content response)))
        end
      else Requesting
  | Raise _ => Requesting
  end.

Definition refresher_step (n : nat) (s : system) : system :=
  match refresher s with
  | Requesting =>
      match sys_envs s with
      | [] => s
      | env :: later =>
          mk_system (sys_files s) later (after_request env) (handlers s)
      end
  | Replacing wr =>
      let c := writer_step n (mk_conf (sys_files s) wr AtExists) in
      mk_system (conf_files c) (sys_envs s)
        match writer c with
        | Stored => Requesting
        | wr' => Replacing wr'
        end
        (handlers s)
  end.

(** One turn of the handler of request [i]. *)
Definition handler_step (i n : nat) (s : system) : system :=
  match handlers s !! i with
  | Some rd =>
      mk_system (sys_files s) (sys_envs s) (refresher s)
        (<[i := reader (reader_step n (mk_conf (sys_files s) Stored rd))]>
           (handlers s))
  | None => s
  end.

(** A call of the handler of request [i] that the disk makes fail. *)
Definition handler_fails (i : nat) (e : exn) (s : system) : system :=
  match handlers s !! i with
  | Some rd =>
      mk_system (sys_files s) (sys_envs s) (refresher s)
        (<[i := reader (reader_fails e (mk_conf (sys_files s) Stored rd))]>
           (handlers s))
  | None => s
  end.

Inductive actor :=
| RefreshThread (n : nat)
| RequestThread (i n : nat)
| RequestFails (i : nat) (e : exn).

Definition sys_step (a : actor) (s : system) : system :=
  match a with
  | RefreshThread n => refresher_step n s
  | RequestThread i n => handler_step i n s
  | RequestFails i e => handler_fails i e s
  end.

Fixpoint sys_run (schedule : list actor) (s : system) : system :=
  match schedule with
  | [] => s
  | a :: later => sys_run later (sys_step a s)
  end.

(** The process as [startup_event] leaves it: the loop about to make its
    first request, and [n] requests that have not run a statement yet. *)
Definition sys_start (fs : gmap string bytes) (envs : list Env) (n : nat) : system :=
  mk_system fs envs Requesting (replicate n AtExists).

(** What holds of the handler of request [i] in a system started on the
    files [fs], after the turns [past]. *)
Definition handler_fine (fs : gmap string bytes) (past : list actor)
    (now : gmap string bytes) (i : nat) (rd : reader_pc) : Prop :=
  match rd with
  | AtExists => True
  | AtOpenRb | AtRead _ => is_Some (now !! image_path)
  | Returned r =>
      (exists data, r = Response data "image/jpeg")
      \/ (r = Dict [("error", "Imagem não encontrada.")] /\ fs !! image_path = None)
  | Raised e => RequestFails i e ∈ past
  end.

Definition system_fine (fs : gmap string bytes) (past : list actor) (s : system)
  : Prop :=
  (is_Some (fs !! image_path) -> is_Some (sys_files s !! image_path))
  /\ forall i rd, handlers s !! i = Some rd ->
       handler_fine fs past (sys_files s) i rd.

(** A replace that has not started, with a read that has seen the old
    file only; and a replace that is over, with a read that has seen the
    new file only. *)
Definition before_replace (fs : gmap string bytes) (data : bytes) (c : conf) : Prop :=
  writer c = AtOpen data
  /\ conf_files c !! image_path = fs !! image_path
  /\ match reader c with
     | AtExists | AtOpenRb | Raised _ => True
     | AtRead buffer =>
         exists old, fs !! image_path = Some old
                     /\ buffer = take (List.length buffer) old
     | Returned r => Ok r = read_alone fs
     end.

Definition after_replace (fs : gmap string bytes) (data : bytes) (c : conf) : Prop :=
  writer c = Stored
  /\ conf_files c !! image_path = Some data
  /\ match reader c with
     | AtExists | AtOpenRb | Raised _ => True
     | AtRead buffer => buffer = take (List.length buffer) data
     | Returned r => Ok r = read_alone (<[image_path := data]> fs)
     end.

(** ** The download when [print] can raise

    [print] writes to the standard output, and that can fail: the output
    is closed, or its encoding has no room for the characters of the line.
    [stdout] says, for each line, whether writing it raises.  Line 29 is
    before the [try], lines 49 and 52 are inside it, line 56 is inside the
    [except] clause. *)

Definition stdout := string -> option exn.

(** The standard output that takes every line. *)
Definition working_stdout : stdout := fun _ => None.

Definition print_on (out : stdout) (line : string) : M unit := fun w =>
  match out line with
  | None => print line w
  | Some e => (w, Raise e)
  end.

Definition download_on (out : stdout) (env : Env) : M bool :=
  let date_str := strftime (utcnow env) in
  response ← requests_get env (gibs_url date_str);
  if (status_code response =? 200)%Z then
    write_file env image_path (content response);;
    print_on out "✅ Download da imagem do satélite concluído.";;
    mret true
  else
    print_on out ("❌ Erro ao baixar a imagem da NASA GIBS: "
                  ++ pretty (status_code response));;
    mret false.

Definition on_exception_on (out : stdout) (e : exn) : M bool :=
  print_on out ("❌ Erro na requisição ao GIBS: " ++ exn_str e);;
  mret false.

Definition get_gibs_image_on (out : stdout) (env : Env) : M bool :=
  print_on out "🚀 Iniciando o download da imagem da NASA GIBS...";;
  try_except (download_on out env) (on_exception_on out).

(** A standard output that is a pipe nobody reads any more: every
    [print] raises. *)
Definition broken_stdout : stdout :=
  fun _ => Some (OSError "[Errno 32] Broken pipe").

(** Splits a statement about the outcome of a download into its parts and
    closes those that the case at hand settles. *)
Ltac outcome_cases :=
  repeat match goal with
    | |- _ /\ _ => split
    | |- _ <-> _ => split
    | |- ~ _ => intro
    | |- forall _, _ => intro
    | H : Ok _ = Ok _ |- _ => injection H as H; try subst
    | H : Ok _ = Raise _ |- _ => discriminate H
    | H : Raise _ = Ok _ |- _ => discriminate H
    | H : _ \/ _ |- _ => destruct H
    | H : exists _, _ |- _ => destruct H
    | H : _ /\ _ |- _ => destruct H
    end;
  try congruence; try discriminate; eauto;
  try (exfalso; match goal with H : ~ _ |- _ => apply H; by eauto end).

(** ** Text lemmas *)

Lemma append_cons c a b : String c a ++ b = String c (a ++ b).
Proof. reflexivity. Qed.

Lemma append_empty b : "" ++ b = b.
Proof. reflexivity. Qed.

Lemma append_assoc (a b c : string) : a ++ (b ++ c) = (a ++ b) ++ c.
Proof.
  induction a as [|x a IH]; [reflexivity|].
  rewrite !append_cons, IH. reflexivity.
Qed.

Lemma occurs_append sep a b : occurs sep (a ++ b) = occurs sep a || occurs sep b.
Proof.
  induction a as [|x a IH]; [reflexivity|].
  rewrite append_cons. cbn [occurs]. rewrite IH. apply orb_assoc.
Qed.

Lemma split_on_clean sep a : occurs sep a = false -> split_on sep a = [a].
Proof.
  induction a as [|x a IH]; [reflexivity|].
  cbn [occurs split_on]. intros [Hx Ha]%orb_false_iff.
  rewrite Hx, IH by exact Ha. reflexivity.
Qed.

Lemma split_on_sep sep a b :
  occurs sep a = false -> split_on sep (a ++ String sep b) = a :: split_on sep b.
Proof.
  induction a as [|x a IH].
  - intros _. rewrite append_empty. cbn [split_on].
    rewrite Ascii.eqb_refl. reflexivity.
  - cbn [occurs]. intros [Hx Ha]%orb_false_iff.
    rewrite append_cons. cbn [split_on]. rewrite Hx, IH by exact Ha. reflexivity.
Qed.

Lemma split_on_nonempty sep a : split_on sep a <> [].
Proof.
  destruct a as [|x a]; cbn [split_on]; [discriminate|].
  destruct (Ascii.eqb x sep); [discriminate|].
  destruct (split_on sep a); discriminate.
Qed.

Lemma split_on_app sep a b :
  split_on sep (a ++ String sep b) = (split_on sep a ++ split_on sep b)%list.
Proof.
  induction a as [|x a IH].
  - rewrite append_empty. cbn [split_on]. rewrite Ascii.eqb_refl. reflexivity.
  - rewrite append_cons. cbn [split_on]. rewrite IH.
    destruct (Ascii.eqb x sep); [reflexivity|].
    pose proof (split_on_nonempty sep a) as Hne.
    destruct (split_on sep a); [contradiction|reflexivity].
Qed.

Lemma cut_at_sep sep a b :
  occurs sep a = false -> cut_at sep (a ++ String sep b) = Some (a, b).
Proof.
  induction a as [|x a IH].
  - intros _. rewrite append_empty. cbn [cut_at].
    rewrite Ascii.eqb_refl. reflexivity.
  - cbn [occurs]. intros [Hx Ha]%orb_false_iff.
    rewrite append_cons. cbn [cut_at]. rewrite Hx, IH by exact Ha. reflexivity.
Qed.

Lemma digit_code n : N_of_ascii (digit n) = 48 + n mod 10.
Proof.
  unfold digit. apply N_ascii_embedding.
  pose proof (N.mod_upper_bound n 10 ltac:(lia)) as Hlt.
  set (r := n mod 10) in *. clearbody r. lia.
Qed.

Lemma digit_val_digit n : digit_val (digit n) = Some (n mod 10).
Proof.
  unfold digit_val. rewrite digit_code.
  pose proof (N.mod_upper_bound n 10 ltac:(lia)) as Hlt.
  set (r := n mod 10) in *. clearbody r. cbv zeta.
  replace (48 <=? 48 + r) with true by (symmetry; apply N.leb_le; lia).
  replace (48 + r <=? 57) with true by (symmetry; apply N.leb_le; lia).
  simpl. f_equal. lia.
Qed.

Lemma digit_neq n c : N_of_ascii c < 48 -> Ascii.eqb (digit n) c = false.
Proof.
  intros Hc. apply Ascii.eqb_neq. intros Heq.
  apply (f_equal N_of_ascii) in Heq. rewrite digit_code in Heq.
  set (r := n mod 10) in *. clearbody r. lia.
Qed.

Lemma pad2_value n : n < 100 -> number_of (pad2 n) 0 = Some n.
Proof.
  intros Hn. unfold pad2. cbn [number_of]. rewrite !digit_val_digit.
  f_equal.
  rewrite (N.mod_small (n / 10) 10) by (apply N.Div0.div_lt_upper_bound; lia).
  pose proof (N.div_mod n 10 ltac:(lia)).
  set (r := n mod 10) in *. set (q := n / 10) in *. clearbody r q. lia.
Qed.

Lemma pad4_value n : n < 10000 -> number_of (pad4 n) 0 = Some n.
Proof.
  intros Hn. unfold pad4, pad2. cbn [number_of]. rewrite !digit_val_digit.
  f_equal.
  rewrite (N.mod_small (n / 1000) 10) by (apply N.Div0.div_lt_upper_bound; lia).
  replace (n / 1000) with (n / 10 / 10 / 10) by (rewrite !N.Div0.div_div; reflexivity).
  replace (n / 100) with (n / 10 / 10) by (rewrite !N.Div0.div_div; reflexivity).
  pose proof (N.div_mod n 10 ltac:(lia)).
  pose proof (N.div_mod (n / 10) 10 ltac:(lia)).
  pose proof (N.div_mod (n / 10 / 10) 10 ltac:(lia)).
  set (r0 := n mod 10) in *. set (q0 := n / 10) in *.
  set (r1 := q0 mod 10) in *. set (q1 := q0 / 10) in *.
  set (r2 := q1 mod 10) in *. set (q2 := q1 / 10) in *.
  clearbody r0 q0 r1 q1 r2 q2. lia.
Qed.

Lemma occurs_pad2 sep n : N_of_ascii sep < 48 -> occurs sep (pad2 n) = false.
Proof.
  intros Hs. unfold pad2. cbn [occurs]. rewrite !digit_neq by exact Hs. reflexivity.
Qed.

Lemma occurs_pad4 sep n : N_of_ascii sep < 48 -> occurs sep (pad4 n) = false.
Proof.
  intros Hs. unfold pad4. cbn [occurs].
  rewrite !digit_neq, occurs_pad2 by exact Hs. reflexivity.
Qed.

(** A date prints as ten characters, [YYYY-MM-DD]. *)
Lemma strftime_length d : String.length (strftime d) = 10%nat.
Proof. reflexivity. Qed.

Lemma strptime_strftime d : valid_date d -> strptime (strftime d) = Some d.
Proof.
  intros (Hy & Hm & Hd). destruct d as [y m dd]. cbn [year month day] in *.
  unfold strptime, strftime. cbn [year month day].
  change ("-" ++ pad2 m ++ "-" ++ pad2 dd) with (String "-" (pad2 m ++ String "-" (pad2 dd))).
  rewrite split_on_sep by (apply occurs_pad4; vm_compute; reflexivity).
  rewrite split_on_sep by (apply occurs_pad2; vm_compute; reflexivity).
  rewrite split_on_clean by (apply occurs_pad2; vm_compute; reflexivity).
  change (String.length (pad4 y)) with 4%nat.
  change (String.length (pad2 m)) with 2%nat.
  change (String.length (pad2 dd)) with 2%nat.
  cbn [Nat.eqb andb].
  rewrite pad4_value, !pad2_value by lia. reflexivity.
Qed.

Lemma occurs_strftime sep d : N_of_ascii sep < 45 -> occurs sep (strftime d) = false.
Proof.
  intros Hs. unfold strftime.
  assert (Ascii.eqb "-" sep = false) as Hdash.
  { apply Ascii.eqb_neq. intros Heq. rewrite <- Heq in Hs.
    vm_compute in Hs. discriminate. }
  rewrite !occurs_append, occurs_pad4, !occurs_pad2 by lia.
  cbn [occurs orb]. rewrite Hdash. reflexivity.
Qed.

(** The URL is a fixed text followed by the date. *)
Lemma gibs_url_shape date_str :
  gibs_url date_str =
  "https://gibs.earthdata.nasa.gov/wms/epsg4326/best/wms.cgi"
  ++ String "?" ("SERVICE=WMS&REQUEST=GetMap&VERSION=1.3.0&LAYERS=VIIRS_SNPP_CorrectedReflectance_TrueColor&STYLES=&FORMAT=image/jpeg&TRANSPARENT=FALSE&HEIGHT=800&WIDTH=800&CRS=EPSG:4326&BBOX=-46.5,-17.5,-42.0,-14.0"
  ++ String "&" ("TIME" ++ String "=" date_str)).
Proof.
  unfold gibs_url.
  replace (float_str LON_MIN) with "-46.5" by (vm_compute; reflexivity).
  replace (float_str LAT_MIN) with "-17.5" by (vm_compute; reflexivity).
  replace (float_str LON_MAX) with "-42.0" by (vm_compute; reflexivity).
  replace (float_str LAT_MAX) with "-14.0" by (vm_compute; reflexivity).
  reflexivity.
Qed.

Lemma query_params_gibs_url date_str :
  occurs "&" date_str = false ->
  query_params (gibs_url date_str) =
  [("SERVICE", "WMS"); ("REQUEST", "GetMap"); ("VERSION", "1.3.0");
   ("LAYERS", "VIIRS_SNPP_CorrectedReflectance_TrueColor"); ("STYLES", "");
   ("FORMAT", "image/jpeg"); ("TRANSPARENT", "FALSE"); ("HEIGHT", "800");
   ("WIDTH", "800"); ("CRS", "EPSG:4326"); ("BBOX", "-46.5,-17.5,-42.0,-14.0");
   ("TIME", date_str)].
Proof.
  intros Hclean. rewrite gibs_url_shape. unfold query_params.
  rewrite cut_at_sep by (vm_compute; reflexivity).
  rewrite split_on_app, omap_app.
  rewrite (split_on_clean "&" ("TIME" ++ String "=" date_str))
    by (rewrite occurs_append; cbn [occurs]; rewrite Hclean; reflexivity).
  cbn [omap list_omap]. rewrite cut_at_sep by reflexivity.
  reflexivity.
Qed.

(** ** The download, one case at a time *)

Lemma get_gibs_image_run env w :
  get_gibs_image env w =
  let began := [Print "🚀 Iniciando o download da imagem da NASA GIBS...";
                HttpGet (request_url env)] in
  match provider env (request_url env) with
  | Ok response =>
      if (status_code response =? 200)%Z then
        match disk env with
        | DiskOk =>
            (mk_world (<[image_path := content response]> (files w))
               (trace w ++ began
                ++ [Print "✅ Download da imagem do satélite concluído."]),
             Ok true)
        | OpenRaises e =>
            (mk_world (files w)
               (trace w ++ began
                ++ [Print ("❌ Erro na requisição ao GIBS: " ++ exn_str e)]),
             Ok false)
        | WriteRaises e written =>
            (mk_world (<[image_path := take written (content response)]> (files w))
               (trace w ++ began
                ++ [Print ("❌ Erro na requisição ao GIBS: " ++ exn_str e)]),
             Ok false)
        end
      else
        (mk_world (files w)
           (trace w ++ began
            ++ [Print ("❌ Erro ao baixar a imagem da NASA GIBS: "
                       ++ pretty (status_code response))]),
         Ok false)
  | Raise e =>
      (mk_world (files w)
         (trace w ++ began
          ++ [Print ("❌ Erro na requisição ao GIBS: " ++ exn_str e)]),
       Ok false)
  end.
Proof.
  unfold get_gibs_image, download, on_exception, try_except, requests_get,
    write_file, print, emit, request_url, mbind, M_bind, mret, M_ret.
  cbn [files trace].
  destruct (provider env (gibs_url (strftime (utcnow env)))) as [response|e];
    cbn [files trace].
  - destruct (status_code response =? 200)%Z; cbn [files trace].
    + destruct (disk env); cbn [files trace]; rewrite <- ?app_assoc; reflexivity.
    + rewrite <- ?app_assoc. reflexivity.
  - rewrite <- ?app_assoc. reflexivity.
Qed.

Lemma get_gibs_image_fails env w :
  provider_fails env ->
  (get_gibs_image env w).2 = Ok false /\ files (get_gibs_image env w).1 = files w.
Proof.
  unfold provider_fails. rewrite get_gibs_image_run. cbv zeta.
  destruct (provider env (request_url env)) as [response|e]; [|done].
  intros Hstatus%Z.eqb_neq. rewrite Hstatus. done.
Qed.

Lemma get_gibs_image_returns env w :
  exists b, (get_gibs_image env w).2 = Ok b.
Proof.
  rewrite get_gibs_image_run. cbv zeta.
  destruct (provider env (request_url env)) as [response|e]; [|by eexists].
  destruct (status_code response =? 200)%Z; [|by eexists].
  destruct (disk env); by eexists.
Qed.

Lemma get_gibs_image_events env w :
  exists evs, one_download evs /\ trace (get_gibs_image env w).1 = (trace w ++ evs)%list.
Proof.
  rewrite get_gibs_image_run. cbv zeta. unfold one_download.
  destruct (provider env (request_url env)) as [response|e].
  - destruct (status_code response =? 200)%Z; [destruct (disk env)|];
      cbn [fst trace]; eexists; (split; [eexists _, _; reflexivity|reflexivity]).
  - cbn [fst trace]; eexists; (split; [eexists _, _; reflexivity|reflexivity]).
Qed.

(** ** The endpoint *)

Lemma get_image_run w :
  get_image w =
  (w, Ok match files w !! image_path with
         | Some data => Response data "image/jpeg"
         | None => Dict [("error", "Imagem não encontrada.")]
         end).
Proof.
  unfold get_image, path_exists, read_file, mbind, M_bind, mret, M_ret.
  destruct (files w !! image_path) as [data|] eqn:Hfile.
  - rewrite bool_decide_eq_true_2 by eauto. rewrite Hfile. reflexivity.
  - rewrite bool_decide_eq_false_2 by (intros [? ?]; discriminate). reflexivity.
Qed.

Lemma GET_image_run w :
  GET_image w =
  Ok match files w !! image_path with
     | Some data => mk_reply 200 "image/jpeg" (Raw data)
     | None => mk_reply 200 "application/json"
                 (Json [("error", "Imagem não encontrada.")])
     end.
Proof.
  unfold GET_image. rewrite get_image_run.
  destruct (files w !! image_path); reflexivity.
Qed.

Lemma GET_image_same_files w1 w2 :
  files w1 = files w2 -> GET_image w1 = GET_image w2.
Proof. intros Heq. rewrite !GET_image_run, Heq. reflexivity. Qed.

(** ** The loop *)

Lemma atualizar_periodicamente_cons env later w :
  atualizar_periodicamente (env :: later) w =
  match get_gibs_image env w with
  | (w1, Ok _) =>
      atualizar_periodicamente later
        (mk_world (files w1) (trace w1 ++ [Sleep 14400]))
  | (w1, Raise e) => (w1, Raise e)
  end.
Proof.
  cbn [atualizar_periodicamente]. unfold mbind, M_bind, time_sleep, emit.
  destruct (get_gibs_image env w) as [w1 [b|e]]; reflexivity.
Qed.

Lemma failing_rounds_keep_files envs w :
  Forall provider_fails envs ->
  files (atualizar_periodicamente envs w).1 = files w.
Proof.
  intros Hall. revert w. induction Hall as [|env later Hfail _ IH]; intros w.
  - reflexivity.
  - rewrite atualizar_periodicamente_cons.
    destruct (get_gibs_image_fails env w Hfail) as [Hret Hfiles].
    destruct (get_gibs_image env w) as [w1 r]. cbn [fst snd] in *. subst r.
    rewrite IH. cbn [files]. exact Hfiles.
Qed.

(** ** A replace and a read at the same time *)

Lemma read_alone_run fs :
  read_alone fs =
  Ok match fs !! image_path with
     | Some data => Response data "image/jpeg"
     | None => Dict [("error", "Imagem não encontrada.")]
     end.
Proof. unfold read_alone. rewrite get_image_run. reflexivity. Qed.

Lemma take_as_long_as_it_is {A} (n : nat) (l : list A) :
  take n l = take (List.length (take n l)) l.
Proof.
  rewrite length_take. destruct (Nat.le_ge_cases n (List.length l)) as [Hle|Hge].
  - rewrite Nat.min_l by exact Hle. reflexivity.
  - rewrite Nat.min_r by exact Hge. rewrite firstn_all, take_ge by exact Hge.
    reflexivity.
Qed.

(** Reading on, from where the buffer ends, in a file that holds the first
    bytes of [data]. *)
Lemma read_on_in_new old data written rest j n k :
  data = (written ++ rest)%list ->
  List.length (old_then_new old data j n) = (j + n)%nat ->
  exists n',
    List.length (old_then_new old data j n' ) = (j + n')%nat
    /\ (old_then_new old data j n ++ take k (drop (j + n) written))%list
       = old_then_new old data j n'.
Proof.
  intros -> Hlen.
  set (m := List.length (take k (drop (j + n) written))).
  assert (take k (drop (j + n) written)
          = take m (drop n (drop j (written ++ rest)))) as Hpiece.
  { rewrite drop_drop, drop_app.
    rewrite take_app_le by (subst m; rewrite length_take; lia).
    apply take_as_long_as_it_is. }
  exists (n + m)%nat. unfold old_then_new in *.
  rewrite Hpiece, <- app_assoc, take_take_drop. split; [|reflexivity].
  rewrite <- take_take_drop, app_assoc, length_app, Hlen, <- Hpiece.
  subst m. lia.
Qed.

Lemma reachable_shape_start fs data : reachable_shape fs data (both_start fs data).
Proof. split; cbn; done. Qed.

Lemma reachable_shape_writer fs data n c :
  reachable_shape fs data c -> reachable_shape fs data (writer_step n c).
Proof.
  intros [Hw Hr]. unfold writer_step.
  destruct (writer c) as [d|rest|] eqn:Hpc.
  - destruct Hw as [-> Hfile]. split; cbn [writer reader conf_files].
    + exists []. split; [reflexivity|apply lookup_insert_eq].
    + destruct (reader c); try done.
      destruct Hr as (j & m & Hj & Hlen & Hbuf & Hopen).
      exists j, m. repeat split; try done. intros [d' [=]].
  - destruct Hw as (written & Hdata & Hfile).
    destruct rest as [|b rest]; split; cbn [writer reader conf_files].
    + rewrite Hdata, app_nil_r. exact Hfile.
    + destruct (reader c); try done.
      destruct Hr as (j & m & Hj & Hlen & Hbuf & Hopen).
      exists j, m. repeat split; try done. intros [d' [=]].
    + exists (written ++ take (S n) (b :: rest))%list. split.
      * rewrite <- app_assoc, take_drop. exact Hdata.
      * unfold image_now. rewrite Hfile. apply lookup_insert_eq.
    + destruct (reader c); try done.
      destruct Hr as (j & m & Hj & Hlen & Hbuf & Hopen).
      exists j, m. repeat split; try done. intros [d' [=]].
  - split; rewrite ?Hpc; done.
Qed.

Lemma reader_step_same n c :
  conf_files (reader_step n c) = conf_files c
  /\ writer (reader_step n c) = writer c.
Proof.
  unfold reader_step. destruct (reader c) as [| |buffer|r|e].
  - case_bool_decide; done.
  - destruct (conf_files c !! image_path); done.
  - destruct (drop (List.length buffer) (image_now (conf_files c))); done.
  - done.
  - done.
Qed.

Lemma reachable_shape_reader fs data n c :
  reachable_shape fs data c -> reachable_shape fs data (reader_step n c).
Proof.
  intros [Hw Hr]. destruct (reader_step_same n c) as [Hfiles Hwriter].
  split; [rewrite Hfiles, Hwriter; exact Hw|].
  rewrite Hwriter. clear Hfiles Hwriter. unfold reader_step.
  destruct (reader c) as [| |buffer|r|e] eqn:Hpc.
  - case_bool_decide as Hsome; cbn [reader]; [done|].
    left. split; [reflexivity|].
    assert (conf_files c !! image_path = None) as Hnone.
    { destruct (conf_files c !! image_path); [exfalso; eauto|reflexivity]. }
    destruct (writer c) as [d|rest|].
    + destruct Hw as [_ Hw]. congruence.
    + destruct Hw as (written & _ & Hw). congruence.
    + congruence.
  - destruct (conf_files c !! image_path); cbn [reader]; [|done].
    exists O, O. repeat split; try done. lia.
  - destruct Hr as (j & m & Hj & Hlen & Hbuf & Hopen).
    assert (exists written rest,
              image_now (conf_files c) = written
              /\ ((exists d, writer c = AtOpen d) /\ written = image_now fs
                  \/ (forall d, writer c <> AtOpen d)
                     /\ data = (written ++ rest)%list)) as Hnow.
    { unfold image_now. destruct (writer c) as [d|rest|].
      - destruct Hw as [_ Hw]. rewrite Hw.
        eexists _, []. split; [reflexivity|]. left. eauto.
      - destruct Hw as (written & Hdata & Hw). rewrite Hw.
        exists written, rest. split; [reflexivity|]. right. done.
      - rewrite Hw. exists data, []. split; [reflexivity|]. right.
        split; [done|]. rewrite app_nil_r. reflexivity. }
    destruct Hnow as (written & rest & Hnow & Hcase). rewrite Hnow.
    destruct (drop (List.length buffer) written) as [|b more] eqn:Hmore;
      cbn [reader].
    + right. exists j, m. rewrite Hbuf in *. done.
    + rewrite <- Hmore, Hlen. destruct Hcase as [[Hat ->]|[Hnot Hdata]].
      * pose proof (Hopen Hat) as ->.
        rewrite Nat.add_0_r in *.
        set (k := List.length (take (S n) (drop j (image_now fs)))).
        exists (j + k)%nat, O.
        assert (buffer = take j (image_now fs)) as ->.
        { rewrite Hbuf. unfold old_then_new. rewrite take_0, app_nil_r. done. }
        assert (take (S n) (drop j (image_now fs))
                = take k (drop j (image_now fs))) as ->
          by apply take_as_long_as_it_is.
        rewrite take_take_drop. unfold old_then_new.
        rewrite take_0, app_nil_r.
        assert (k <= List.length (image_now fs) - j)%nat as Hk.
        { subst k. rewrite length_take, length_drop. lia. }
        repeat split; try done; try lia.
        rewrite length_take. lia.
      * rewrite Hbuf.
        destruct (read_on_in_new (image_now fs) data written rest j m (S n))
          as (m' & Hlen' & Heq); [exact Hdata|rewrite <- Hbuf; exact Hlen|].
        exists j, m'. rewrite Heq. repeat split; try done.
        intros Hat. exfalso. destruct Hat as [d Hat]. exact (Hnot d Hat).
  - rewrite Hpc. exact Hr.
  - rewrite Hpc. exact Hr.
Qed.

Lemma reachable_shape_step fs data m c :
  reachable_shape fs data c -> reachable_shape fs data (step m c).
Proof.
  destruct m as [n|n|e]; cbn [step].
  - apply reachable_shape_writer.
  - apply reachable_shape_reader.
  - intros [Hw Hr]. unfold reader_fails.
    destruct (reader c) eqn:Hpc; split; cbn [writer reader conf_files];
      rewrite ?Hpc; done.
Qed.

Lemma reachable_shape_run fs data schedule c :
  reachable_shape fs data c -> reachable_shape fs data (run schedule c).
Proof.
  revert c. induction schedule as [|t later IH]; intros c Hc; [exact Hc|].
  cbn [run]. apply IH, reachable_shape_step, Hc.
Qed.

Lemma run_app s1 s2 c : run (s1 ++ s2) c = run s2 (run s1 c).
Proof.
  revert c. induction s1 as [|t s1 IH]; intros c; [reflexivity|].
  cbn [run app]. apply IH.
Qed.




Lemma image_now_insert fs data : image_now (<[image_path := data]> fs) = data.
Proof. unfold image_now. rewrite lookup_insert_eq. reflexivity. Qed.


(** ** The properties of the service *)


(** C2: a download that fails on the provider's side (a status other than
    200, or an exception out of the request) returns [False] and leaves
    the files as they were, so the next read returns what it returned
    before. *)
Theorem failed_download_keeps_image env w :
  provider_fails env ->
  (get_gibs_image env w).2 = Ok false
  /\ files (get_gibs_image env w).1 = files w
  /\ (get_image (get_gibs_image env w).1).2 = (get_image w).2
  /\ GET_image (get_gibs_image env w).1 = GET_image w.
Proof.
  intros Hfail. destruct (get_gibs_image_fails env w Hfail) as [Hret Hfiles].
  repeat split; [exact Hret|exact Hfiles| |].
  - rewrite !get_image_run. cbn [snd]. rewrite Hfiles. reflexivity.
  - apply GET_image_same_files, Hfiles.
Qed.

(** C3, as the code has it: before the first successful download, after
    any number of downloads that failed on the provider's side, a read is
    answered from the image file on disk: the not-available reply when
    there is no file, and the bytes of the file, left by an earlier run,
    when there is one. *)
Theorem read_before_first_success envs w :
  Forall provider_fails envs ->
  GET_image (atualizar_periodicamente envs w).1 =
  Ok match files w !! image_path with
     | Some data => image_reply data
     | None => not_available
     end.
Proof.
  intros Hall. rewrite GET_image_run, failing_rounds_keep_files by exact Hall.
  reflexivity.
Qed.


(** C5: after a download that returned [True], having received the body
    [content response] from the provider, the next read answers with
    status 200, content type [image/jpeg] and exactly those bytes. *)
Theorem stored_image_is_served env w response :
  provider env (request_url env) = Ok response ->
  (get_gibs_image env w).2 = Ok true ->
  (get_image (get_gibs_image env w).1).2
    = Ok (Response (content response) "image/jpeg")
  /\ GET_image (get_gibs_image env w).1
    = Ok (mk_reply 200 "image/jpeg" (Raw (content response))).
Proof.
  intros Hresp. rewrite GET_image_run, get_image_run, get_gibs_image_run.
  cbv zeta. rewrite Hresp.
  destruct (status_code response =? 200)%Z; [|discriminate].
  destruct (disk env); [|discriminate|discriminate].
  intros _. cbn [fst snd files]. rewrite lookup_insert_eq. done.
Qed.



(** C8: the one URL a download requests carries, as query parameters, the
    format [image/jpeg], height and width 800, the bounding box
    [-46.5,-17.5,-42.0,-14.0] (west, south, east, north) and, as [TIME],
    the UTC date written [YYYY-MM-DD]: ten characters that read back as
    the year, month and day of the date. *)
Theorem request_url_encodes env w :
  valid_date (utcnow env) ->
  requests_in (trace (get_gibs_image env w).1)
    = (requests_in (trace w) ++ [request_url env])%list
  /\ url_param "FORMAT" (request_url env) = Some "image/jpeg"
  /\ url_param "HEIGHT" (request_url env) = Some "800"
  /\ url_param "WIDTH" (request_url env) = Some "800"
  /\ url_param "BBOX" (request_url env)
     = Some (float_str LON_MIN ++ "," ++ float_str LAT_MIN ++ ","
             ++ float_str LON_MAX ++ "," ++ float_str LAT_MAX)
  /\ url_param "BBOX" (request_url env) = Some "-46.5,-17.5,-42.0,-14.0"
  /\ url_param "TIME" (request_url env) = Some (strftime (utcnow env))
  /\ String.length (strftime (utcnow env)) = 10%nat
  /\ strptime (strftime (utcnow env)) = Some (utcnow env).
Proof.
  intros Hvalid. split.
  - destruct (get_gibs_image_events env w) as (evs & Hshape & Htrace).
    rewrite Htrace. unfold requests_in. rewrite omap_app. f_equal.
    destruct Hshape as (url & line & ->).
    pose proof (get_gibs_image_run env w) as Hrun. cbv zeta in Hrun.
    rewrite Hrun in Htrace.
    destruct (provider env (request_url env)) as [response|e];
      [destruct (status_code response =? 200)%Z; [destruct (disk env)|]|];
      cbn [fst trace] in Htrace; apply app_inv_head in Htrace;
      injection Htrace as <- _; reflexivity.
  - unfold url_param, request_url.
    rewrite query_params_gibs_url
      by (apply occurs_strftime; vm_compute; reflexivity).
    repeat split; try reflexivity.
    apply strptime_strftime, Hvalid.
Qed.

(** C9: reads with nothing in between leave the world as it is and all
    return the same result. *)
Theorem repeated_reads_agree n w :
  (get_image w).1 = w
  /\ repeat_get_image n w = replicate n (get_image w).2
  /\ GET_image (get_image w).1 = GET_image w.
Proof.
  assert ((get_image w).1 = w) as Hsame by (rewrite get_image_run; reflexivity).
  split; [exact Hsame|]. split; [|rewrite Hsame; reflexivity].
  induction n as [|n IH]; [reflexivity|].
  cbn [repeat_get_image replicate].
  destruct (get_image w) as [w' r] eqn:Hget. cbn [fst snd] in *. subst w'.
  rewrite IH. reflexivity.
Qed.

(** With a standard output that takes every line, the download is
    [get_gibs_image]. *)
Lemma get_gibs_image_on_working env :
  get_gibs_image_on working_stdout env = get_gibs_image env.
Proof. reflexivity. Qed.

(** Whatever runs inside the [try], an exception leaves the [except]
    clause only when its own [print] raises. *)
Lemma try_except_on_exception_on out (body : M bool) w e :
  (try_except body (on_exception_on out) w).2 = Raise e ->
  exists e', out ("❌ Erro na requisição ao GIBS: " ++ exn_str e') = Some e.
Proof.
  unfold try_except, on_exception_on, print_on, print, emit, mbind, M_bind,
    mret, M_ret.
  destruct (body w) as [w1 [b|e1]]; cbn [snd]; [discriminate|].
  destruct (out ("❌ Erro na requisição ao GIBS: " ++ exn_str e1)) as [e2|] eqn:Hout;
    cbn [snd]; [|discriminate].
  intros [= <-]. eauto.
Qed.

Lemma get_gibs_image_on_run out env w :
  get_gibs_image_on out env w =
  match out "🚀 Iniciando o download da imagem da NASA GIBS..." with
  | Some e => (w, Raise e)
  | None =>
      try_except (download_on out env) (on_exception_on out)
        (mk_world (files w)
           (trace w ++ [Print "🚀 Iniciando o download da imagem da NASA GIBS..."]))
  end.
Proof.
  unfold get_gibs_image_on, print_on, print, emit, mbind, M_bind.
  destruct (out "🚀 Iniciando o download da imagem da NASA GIBS..."); reflexivity.
Qed.

(** C10, as the code has it.  Whatever raises inside the [try] of
    [get_gibs_image] (the request, the file write, anything else) is
    caught.  When no [print] raises, the function returns a boolean,
    [True] exactly when the provider answered 200 and the body was written
    without an exception, and one round of the loop's body completes.  An
    exception reaches the caller only out of the [print] of line 29, which
    is before the [try], or out of the [print] of line 56, which is inside
    the [except] clause; and one out of line 29 always does. *)
Theorem get_gibs_image_exceptions out env w :
  (forall (body : M bool) e,
     (try_except body (on_exception_on out) w).2 = Raise e ->
     exists e', out ("❌ Erro na requisição ao GIBS: " ++ exn_str e') = Some e)
  /\ ((forall line, out line = None) ->
      exists b, (get_gibs_image_on out env w).2 = Ok b
                /\ (b = true <-> provider_200 env /\ disk env = DiskOk)
                /\ ((get_gibs_image_on out env;; time_sleep (4 * 3600)) w).2
                   = Ok tt)
  /\ (forall e,
        (get_gibs_image_on out env w).2 = Raise e ->
        out "🚀 Iniciando o download da imagem da NASA GIBS..." = Some e
        \/ exists e', out ("❌ Erro na requisição ao GIBS: " ++ exn_str e') = Some e)
  /\ (forall e,
        out "🚀 Iniciando o download da imagem da NASA GIBS..." = Some e ->
        (get_gibs_image_on out env w).2 = Raise e).
Proof.
  split; [intros body e; apply try_except_on_exception_on|]. split; [|split].
  - intros Hout.
    assert (exists b, (get_gibs_image_on out env w).2 = Ok b
                      /\ (b = true <-> provider_200 env /\ disk env = DiskOk))
      as (b & Hret & Hb).
    { unfold provider_200, get_gibs_image_on, download_on, on_exception_on,
        try_except, print_on, print, emit, requests_get, write_file, request_url,
        mbind, M_bind, mret, M_ret.
      rewrite !Hout. cbn [files trace].
      destruct (provider env (gibs_url (strftime (utcnow env)))) as [response|e];
        cbn [files trace snd]; rewrite ?Hout; cbn [snd].
      - destruct (status_code response =? 200)%Z eqn:Hstatus;
          cbn [files trace snd]; rewrite ?Hout; cbn [snd].
        + apply Z.eqb_eq in Hstatus.
          destruct (disk env); cbn [files trace snd]; rewrite ?Hout; cbn [snd];
            eexists; (split; [reflexivity|]); outcome_cases.
        + apply Z.eqb_neq in Hstatus.
          eexists; (split; [reflexivity|]); outcome_cases.
      - eexists; (split; [reflexivity|]); outcome_cases. }
    exists b. split; [exact Hret|]. split; [exact Hb|].
    unfold mbind, M_bind, time_sleep, emit.
    destruct (get_gibs_image_on out env w) as [w1 r]. cbn [snd] in Hret.
    subst r. reflexivity.
  - intros e. rewrite get_gibs_image_on_run.
    destruct (out "🚀 Iniciando o download da imagem da NASA GIBS...") as [e0|];
      cbn [snd].
    + intros [= <-]. left. reflexivity.
    + intros Hraise. right. eapply try_except_on_exception_on, Hraise.
  - intros e Hout. rewrite get_gibs_image_on_run, Hout. reflexivity.
Qed.

(** ** More on the download and the loop *)

Lemma get_gibs_image_files env w :
  files (get_gibs_image env w).1 = files_after env (files w).
Proof.
  rewrite get_gibs_image_run. unfold files_after. cbv zeta.
  destruct (provider env (request_url env)) as [response|e]; [|reflexivity].
  destruct (status_code response =? 200)%Z; [|reflexivity].
  destruct (disk env); reflexivity.
Qed.

Lemma atualizar_periodicamente_files envs w :
  files (atualizar_periodicamente envs w).1
  = foldl (fun fs env => files_after env fs) (files w) envs.
Proof.
  revert w. induction envs as [|env later IH]; intros w; [reflexivity|].
  rewrite atualizar_periodicamente_cons.
  destruct (get_gibs_image_returns env w) as [b Hret].
  pose proof (get_gibs_image_files env w) as Hfiles.
  destruct (get_gibs_image env w) as [w1 r]. cbn [fst snd] in *. subst r.
  rewrite IH. cbn [files foldl]. rewrite Hfiles. reflexivity.
Qed.

Lemma files_after_other env fs p :
  p <> image_path -> files_after env fs !! p = fs !! p.
Proof.
  intros Hp. unfold files_after.
  destruct (provider env (request_url env)) as [response|e]; [|reflexivity].
  destruct (status_code response =? 200)%Z; [|reflexivity].
  destruct (disk env); rewrite ?lookup_insert_ne by congruence; reflexivity.
Qed.

Lemma files_after_keeps_image env fs :
  is_Some (fs !! image_path) -> is_Some (files_after env fs !! image_path).
Proof.
  intros Hsome. unfold files_after.
  destruct (provider env (request_url env)) as [response|e]; [|exact Hsome].
  destruct (status_code response =? 200)%Z; [|exact Hsome].
  destruct (disk env); rewrite ?lookup_insert_eq; eauto.
Qed.

Lemma files_after_fails env fs : provider_fails env -> files_after env fs = fs.
Proof.
  unfold provider_fails, files_after.
  destruct (provider env (request_url env)) as [response|e]; [|reflexivity].
  intros Hstatus%Z.eqb_neq. rewrite Hstatus. reflexivity.
Qed.

(** X1: a download, and any number of rounds of the loop, change no file
    other than the image file. *)
Theorem only_the_image_file_changes envs env w p :
  p <> image_path ->
  files (get_gibs_image env w).1 !! p = files w !! p
  /\ files (atualizar_periodicamente envs w).1 !! p = files w !! p.
Proof.
  intros Hp. split.
  - rewrite get_gibs_image_files. apply files_after_other, Hp.
  - rewrite atualizar_periodicamente_files. generalize (files w) as fs.
    induction envs as [|env' later IH]; intros fs; [reflexivity|].
    cbn [foldl]. rewrite IH. apply files_after_other, Hp.
Qed.

(** X2: no round ever removes the image file.  Once it exists, then after
    any number of rounds, whatever the provider and the disk do, a read
    answers 200 with content type [image/jpeg], never the not-available
    reply. *)
Theorem image_never_goes_away envs w :
  is_Some (files w !! image_path) ->
  exists data,
    files (atualizar_periodicamente envs w).1 !! image_path = Some data
    /\ GET_image (atualizar_periodicamente envs w).1 = Ok (image_reply data).
Proof.
  intros Hsome.
  assert (is_Some (files (atualizar_periodicamente envs w).1 !! image_path))
    as [data Hdata].
  { rewrite atualizar_periodicamente_files. revert Hsome.
    generalize (files w) as fs.
    induction envs as [|env later IH]; intros fs Hsome; [exact Hsome|].
    cbn [foldl]. apply IH, files_after_keeps_image, Hsome. }
  exists data. split; [exact Hdata|].
  rewrite GET_image_run, Hdata. reflexivity.
Qed.

(** X3: when the provider answers 200 but [open] raises, the download
    returns [False] and the files are as before, so the old image, if
    any, is still the one served. *)
Theorem open_failure_keeps_image env w e :
  provider_200 env ->
  disk env = OpenRaises e ->
  (get_gibs_image env w).2 = Ok false
  /\ files (get_gibs_image env w).1 = files w
  /\ GET_image (get_gibs_image env w).1 = GET_image w.
Proof.
  intros (response & Hresp & Hstatus%Z.eqb_eq) Hdisk.
  assert (files (get_gibs_image env w).1 = files w) as Hfiles.
  { rewrite get_gibs_image_files. unfold files_after.
    rewrite Hresp, Hstatus, Hdisk. reflexivity. }
  split; [|split; [exact Hfiles|apply GET_image_same_files, Hfiles]].
  rewrite get_gibs_image_run. cbv zeta. rewrite Hresp, Hstatus, Hdisk.
  reflexivity.
Qed.

(** X4: when the provider answers 200 and the write raises after
    [written] bytes, the download returns [False] and yet the image file
    now holds the first [written] bytes of the new body: the next read
    serves that cut-off image, not the old one. *)
Theorem write_failure_truncates_image env w response e written :
  provider env (request_url env) = Ok response ->
  status_code response = 200%Z ->
  disk env = WriteRaises e written ->
  (get_gibs_image env w).2 = Ok false
  /\ GET_image (get_gibs_image env w).1
     = Ok (image_reply (take written (content response))).
Proof.
  intros Hresp Hstatus%Z.eqb_eq Hdisk.
  rewrite GET_image_run, get_gibs_image_run. cbv zeta.
  rewrite Hresp, Hstatus, Hdisk. cbn [fst snd files].
  rewrite lookup_insert_eq. done.
Qed.

(** X5: the image served is the body of the last successful download.
    Whatever happened in the rounds before it, and whatever image was there,
    after a round that received 200 and wrote the body, followed by any
    number of rounds that failed on the provider's side, a read returns
    exactly that body. *)
Theorem last_success_is_served earlier env later w response :
  provider env (request_url env) = Ok response ->
  status_code response = 200%Z ->
  disk env = DiskOk ->
  Forall provider_fails later ->
  GET_image (atualizar_periodicamente (earlier ++ env :: later) w).1
  = Ok (image_reply (content response)).
Proof.
  intros Hresp Hstatus%Z.eqb_eq Hdisk Hlater.
  rewrite GET_image_run, atualizar_periodicamente_files, foldl_app.
  cbn [foldl].
  set (fs := foldl _ (files w) earlier). clearbody fs.
  assert (files_after env fs !! image_path = Some (content response)) as Hnow.
  { unfold files_after. rewrite Hresp, Hstatus, Hdisk. apply lookup_insert_eq. }
  revert Hnow. generalize (files_after env fs) as fs'. clear fs.
  induction Hlater as [|env' later' Hfail _ IH]; intros fs' Hnow.
  - cbn [foldl]. rewrite Hnow. reflexivity.
  - cbn [foldl]. apply IH. rewrite files_after_fails by exact Hfail. exact Hnow.
Qed.

Lemma status_line_is_not_success tail :
  "❌ Erro ao baixar a imagem da NASA GIBS: " ++ tail
  <> "✅ Download da imagem do satélite concluído.".
Proof. intros Heq. vm_compute in Heq. discriminate Heq. Qed.

Lemma exception_line_is_not_success tail :
  "❌ Erro na requisição ao GIBS: " ++ tail
  <> "✅ Download da imagem do satélite concluído.".
Proof. intros Heq. vm_compute in Heq. discriminate Heq. Qed.

(** X6: the output tells the outcome.  Every download prints its opening
    line, makes exactly one request and prints exactly one closing line,
    and it returns [True] exactly when that closing line is the line that
    reports success. *)
Theorem closing_line_tells_outcome env w :
  exists line,
    trace (get_gibs_image env w).1
    = (trace w ++ [Print "🚀 Iniciando o download da imagem da NASA GIBS...";
                   HttpGet (request_url env); Print line])%list
    /\ ((get_gibs_image env w).2 = Ok true
        <-> line = "✅ Download da imagem do satélite concluído.").
Proof.
  pose proof status_line_is_not_success as Hstatus_line.
  pose proof exception_line_is_not_success as Hexn_line.
  rewrite get_gibs_image_run. cbv zeta.
  destruct (provider env (request_url env)) as [response|e];
    [destruct (status_code response =? 200)%Z; [destruct (disk env)|]|];
    cbn [fst snd trace]; eexists; (split; [reflexivity|]);
    split; first [done | by intros ?%Hstatus_line | by intros ?%Hexn_line].
Qed.

(** X7: whatever the date, the requested URL has exactly these twelve
    query parameters, in this order, each key once: a WMS 1.3.0 [GetMap]
    request for the VIIRS true-colour layer in EPSG:4326. *)
Theorem request_url_parameters env :
  query_params (request_url env) =
  [("SERVICE", "WMS"); ("REQUEST", "GetMap"); ("VERSION", "1.3.0");
   ("LAYERS", "VIIRS_SNPP_CorrectedReflectance_TrueColor"); ("STYLES", "");
   ("FORMAT", "image/jpeg"); ("TRANSPARENT", "FALSE"); ("HEIGHT", "800");
   ("WIDTH", "800"); ("CRS", "EPSG:4326"); ("BBOX", "-46.5,-17.5,-42.0,-14.0");
   ("TIME", strftime (utcnow env))]
  /\ NoDup (query_params (request_url env)).*1
  /\ cut_at "?" (request_url env)
     = Some ("https://gibs.earthdata.nasa.gov/wms/epsg4326/best/wms.cgi",
             "SERVICE=WMS&REQUEST=GetMap&VERSION=1.3.0&LAYERS=VIIRS_SNPP_CorrectedReflectance_TrueColor&STYLES=&FORMAT=image/jpeg&TRANSPARENT=FALSE&HEIGHT=800&WIDTH=800&CRS=EPSG:4326&BBOX=-46.5,-17.5,-42.0,-14.0&TIME="
             ++ strftime (utcnow env)).
Proof.
  unfold request_url.
  rewrite query_params_gibs_url
    by (apply occurs_strftime; vm_compute; reflexivity).
  split; [reflexivity|]. split.
  - cbn [fmap list_fmap fst]. apply NoDup_ListNoDup.
    repeat (constructor; [cbn [In]; intros Hin; repeat destruct Hin as [Hin|Hin]; try discriminate Hin; try contradiction|]).
    constructor.
  - rewrite gibs_url_shape. rewrite cut_at_sep by (vm_compute; reflexivity).
    reflexivity.
Qed.

(** X8: the port is never 0.  It is 8000 when [PORT] is unset or is text
    that denotes 0; it is the number [PORT] denotes when that is not 0,
    whatever its sign or size; and when [PORT] is text that [int] rejects
    the [ValueError] is raised, with no fall back to 8000. *)
Theorem port_selection int_of_str (environ : gmap string string) :
  (forall p, port int_of_str environ = Some p -> p <> 0%Z)
  /\ (environ !! "PORT" = None -> port int_of_str environ = Some 8000%Z)
  /\ (forall s, environ !! "PORT" = Some s -> int_of_str s = Some 0%Z ->
        port int_of_str environ = Some 8000%Z)
  /\ (forall s n, environ !! "PORT" = Some s -> int_of_str s = Some n ->
        n <> 0%Z -> port int_of_str environ = Some n)
  /\ (forall s, environ !! "PORT" = Some s -> int_of_str s = None ->
        port int_of_str environ = None).
Proof.
  unfold port, environ_get, int, int_or.
  destruct (environ !! "PORT") as [s|] eqn:Hport.
  - repeat split; try discriminate.
    + intros p. destruct (int_of_str s) as [n|]; [|discriminate].
      cbn. destruct (n =? 0)%Z eqn:Hn; intros [= <-]; [discriminate|].
      apply Z.eqb_neq, Hn.
    + intros s' [= <-] ->. reflexivity.
    + intros s' n [= <-] -> Hn%Z.eqb_neq. cbn. rewrite Hn. reflexivity.
    + intros s' [= <-] ->. reflexivity.
  - repeat split; try discriminate; try reflexivity.
    intros p [= <-]. discriminate.
Qed.

(** ** The loop and the requests under every schedule *)

Lemma writer_step_files n c :
  conf_files (writer_step n c) = conf_files c
  \/ exists data, conf_files (writer_step n c) = <[image_path := data]> (conf_files c).
Proof.
  unfold writer_step. destruct (writer c) as [d|[|b rest]|]; cbn [conf_files]; eauto.
Qed.

Lemma handler_fine_insert fs past now i data rd :
  handler_fine fs past now i rd ->
  handler_fine fs past (<[image_path := data]> now) i rd.
Proof.
  destruct rd; cbn [handler_fine]; rewrite ?lookup_insert_eq; eauto.
Qed.

Lemma handler_fine_later fs past a now i rd :
  handler_fine fs past now i rd -> handler_fine fs (past ++ [a]) now i rd.
Proof.
  destruct rd; cbn [handler_fine]; try done. intros Hin.
  apply elem_of_app. left. exact Hin.
Qed.

Lemma reader_step_fine fs past now wr i n rd :
  (now !! image_path = None -> fs !! image_path = None) ->
  handler_fine fs past now i rd ->
  handler_fine fs past now i (reader (reader_step n (mk_conf now wr rd))).
Proof.
  intros Hnone Hrd. unfold reader_step. cbn [reader conf_files writer].
  destruct rd as [| |buffer|r|e]; cbn [handler_fine] in *.
  - case_bool_decide as Hsome; cbn [reader handler_fine]; [exact Hsome|].
    right. split; [reflexivity|]. apply Hnone.
    destruct (now !! image_path); [exfalso; eauto|reflexivity].
  - destruct Hrd as [data Hfile]. rewrite Hfile. cbn [reader handler_fine].
    rewrite Hfile. eauto.
  - destruct (drop (List.length buffer) (image_now now));
      cbn [reader handler_fine]; eauto.
  - exact Hrd.
  - exact Hrd.
Qed.

Lemma system_fine_start fs envs n : system_fine fs [] (sys_start fs envs n).
Proof.
  split; [done|]. cbn [handlers sys_start sys_files]. intros i rd Hrd.
  apply lookup_replicate in Hrd as [-> _]. exact I.
Qed.

Lemma system_fine_step fs past a s :
  system_fine fs past s -> system_fine fs (past ++ [a]) (sys_step a s).
Proof.
  intros [Hkeep Hall]. destruct a as [n|i n|i e]; cbn [sys_step].
  - unfold refresher_step. destruct (refresher s) as [|wr].
    + destruct (sys_envs s) as [|env later];
        (split; cbn [sys_files handlers]; [exact Hkeep|]);
        intros i rd Hrd; apply handler_fine_later, Hall, Hrd.
    + cbv zeta. cbn [sys_files handlers].
      destruct (writer_step_files n (mk_conf (sys_files s) wr AtExists))
        as [Hsame|[data Hput]]; cbn [conf_files] in *.
      * rewrite Hsame. split; cbn [sys_files handlers]; [exact Hkeep|].
        intros i rd Hrd. apply handler_fine_later, Hall, Hrd.
      * rewrite Hput. split; cbn [sys_files handlers];
          [intros _; rewrite lookup_insert_eq; eauto|].
        intros i rd Hrd. apply handler_fine_later, handler_fine_insert, Hall, Hrd.
  - unfold handler_step. destruct (handlers s !! i) as [rd|] eqn:Hrd.
    + split; cbn [sys_files handlers]; [exact Hkeep|].
      intros i' rd' Hrd'. apply handler_fine_later.
      apply list_lookup_insert_Some in Hrd' as [(<- & <- & _)|[_ Hrd']].
      * apply reader_step_fine; [|apply Hall, Hrd].
        intros Hnone. destruct (fs !! image_path) eqn:Hfs; [|reflexivity].
        destruct Hkeep as [? Hnow]; [eauto|congruence].
      * apply Hall, Hrd'.
    + split; [exact Hkeep|].
      intros i' rd' Hrd'. apply handler_fine_later, Hall, Hrd'.
  - unfold handler_fails. destruct (handlers s !! i) as [rd|] eqn:Hrd.
    + split; cbn [sys_files handlers]; [exact Hkeep|].
      intros i' rd' Hrd'.
      apply list_lookup_insert_Some in Hrd' as [(<- & <- & _)|[_ Hrd']].
      * pose proof (Hall _ _ Hrd) as Hfine. unfold reader_fails.
        cbn [reader conf_files writer].
        destruct rd; cbn [reader handler_fine] in *;
          first [ exact Hfine
                | apply elem_of_app; left; exact Hfine
                | apply elem_of_app; right; left ].
      * apply handler_fine_later, Hall, Hrd'.
    + split; [exact Hkeep|].
      intros i' rd' Hrd'. apply handler_fine_later, Hall, Hrd'.
Qed.

Lemma system_fine_run fs schedule past s :
  system_fine fs past s -> system_fine fs (past ++ schedule) (sys_run schedule s).
Proof.
  revert past s. induction schedule as [|a later IH]; intros past s Hs.
  - rewrite app_nil_r. exact Hs.
  - cbn [sys_run]. rewrite cons_middle, app_assoc.
    apply IH, system_fine_step, Hs.
Qed.

(** X9: with the refresh loop and any number of requests running together,
    their turns interleaved in any order and the provider and the disk
    behaving in any way, a request handler raises only when one of its own
    calls is made to fail by the disk: the loop never makes one raise,
    for the file a handler found is still there when it opens and reads
    it, nothing ever removing it.  And a handler returns either an
    [image/jpeg] response or, only if there was no image file when the
    process started, the not-available dict. *)
Theorem requests_beside_the_loop fs envs n schedule i rd :
  handlers (sys_run schedule (sys_start fs envs n)) !! i = Some rd ->
  (forall e, rd = Raised e -> RequestFails i e ∈ schedule)
  /\ (forall r, rd = Returned r ->
        (exists data, r = Response data "image/jpeg")
        \/ (r = Dict [("error", "Imagem não encontrada.")]
            /\ fs !! image_path = None)).
Proof.
  intros Hrd.
  destruct (system_fine_run fs schedule [] _ (system_fine_start fs envs n))
    as [_ Hall].
  pose proof (Hall _ _ Hrd) as Hfine. cbn [app] in Hfine.
  split.
  - intros e ->. exact Hfine.
  - intros r ->. exact Hfine.
Qed.

(** Run alone with turns large enough for the body, the refresh thread
    leaves the files as [get_gibs_image] does. *)
Lemma refresher_alone env fs h k w :
  files w = fs ->
  (forall response, provider env (request_url env) = Ok response ->
                    (List.length (content response) <= S k)%nat) ->
  sys_files (sys_run (replicate 4 (RefreshThread k)) (sys_start fs [env] h))
  = files (get_gibs_image env w).1.
Proof.
  intros <- Hfits. rewrite get_gibs_image_files. unfold files_after, sys_start.
  cbn [replicate sys_run sys_step]. unfold refresher_step at 4.
  cbn [refresher sys_envs sys_files handlers]. unfold after_request.
  destruct (provider env (request_url env)) as [response|e]; [|reflexivity].
  specialize (Hfits response eq_refl).
  destruct (status_code response =? 200)%Z; [|reflexivity].
  assert (forall data : bytes,
            (List.length data <= S k)%nat ->
            sys_files
              (refresher_step k (refresher_step k (refresher_step k
                 (mk_system (files w) [] (Replacing (AtOpen data))
                    (replicate h AtExists)))))
            = <[image_path := data]> (files w)) as Hreplace.
  { intros data Hlen. unfold refresher_step at 3.
    cbn [refresher sys_envs sys_files handlers]. cbv zeta.
    unfold writer_step at 1 2. cbn [writer conf_files reader].
    unfold refresher_step at 2. cbn [refresher sys_envs sys_files handlers].
    cbv zeta. unfold writer_step at 1 2. cbn [writer conf_files reader].
    destruct data as [|b rest]; cbn [writer conf_files reader].
    - reflexivity.
    - rewrite image_now_insert, insert_insert_eq, app_nil_l.
      rewrite take_ge, drop_ge by exact Hlen.
      unfold refresher_step. cbn [refresher sys_envs sys_files handlers].
      reflexivity. }
  destruct (disk env) as [|e|e written].
  - apply Hreplace, Hfits.
  - reflexivity.
  - apply Hreplace. rewrite length_take. lia.
Qed.

(** ** Reads clear of the replace *)

Lemma step_keeps_result m c r :
  reader c = Returned r -> reader (step m c) = Returned r.
Proof.
  intros Hret. destruct m as [n|n|e]; cbn [step].
  - unfold writer_step. destruct (writer c) as [d|[|b rest]|]; exact Hret.
  - unfold reader_step. rewrite Hret. exact Hret.
  - unfold reader_fails. rewrite Hret. exact Hret.
Qed.

Lemma run_keeps_result schedule c r :
  reader c = Returned r -> reader (run schedule c) = Returned r.
Proof.
  revert c. induction schedule as [|m later IH]; intros c Hret; [exact Hret|].
  cbn [run]. apply IH, step_keeps_result, Hret.
Qed.

Lemma read_all_of_it (buffer content : bytes) :
  buffer = take (List.length buffer) content ->
  drop (List.length buffer) content = [] ->
  buffer = content.
Proof.
  intros Hprefix Hend.
  rewrite <- (take_drop (List.length buffer) content), Hend, app_nil_r.
  exact Hprefix.
Qed.

Lemma read_on_in_one (buffer content : bytes) n :
  buffer = take (List.length buffer) content ->
  (buffer ++ take n (drop (List.length buffer) content))%list
  = take (List.length (buffer ++ take n (drop (List.length buffer) content)))
      content.
Proof.
  intros Hprefix. rewrite length_app.
  rewrite (take_as_long_as_it_is n (drop _ content)) at 1.
  rewrite <- take_take_drop, <- Hprefix. reflexivity.
Qed.

Lemma before_replace_handler fs data m c :
  (forall n, m <> Refresher n) ->
  before_replace fs data c -> before_replace fs data (step m c).
Proof.
  intros Hm (Hw & Hfile & Hr). destruct m as [n|n|e]; cbn [step].
  - exfalso. exact (Hm n eq_refl).
  - destruct (reader_step_same n c) as [Hfiles Hwriter].
    split; [congruence|]. split; [congruence|].
    unfold reader_step. destruct (reader c) as [| |buffer|r|e] eqn:Hpc.
    + case_bool_decide as Hsome; cbn [reader]; [done|].
      rewrite read_alone_run, <- Hfile.
      destruct (conf_files c !! image_path); [exfalso; eauto|reflexivity].
    + destruct (conf_files c !! image_path) as [old|] eqn:Hold; cbn [reader];
        [|done].
      exists old. split; [congruence|reflexivity].
    + destruct Hr as (old & Hold & Hprefix).
      assert (image_now (conf_files c) = old) as ->
        by (unfold image_now; rewrite Hfile, Hold; reflexivity).
      destruct (drop (List.length buffer) old) as [|b more] eqn:Hmore;
        cbn [reader].
      * rewrite read_alone_run, Hold.
        rewrite (read_all_of_it buffer old Hprefix Hmore). reflexivity.
      * exists old. split; [exact Hold|]. rewrite <- Hmore.
        apply read_on_in_one, Hprefix.
    + rewrite Hpc. exact Hr.
    + rewrite Hpc. exact Hr.
  - unfold reader_fails.
    destruct (reader c) eqn:Hpc; repeat split; cbn [writer conf_files reader];
      rewrite ?Hpc; done.
Qed.

Lemma before_replace_run fs data schedule c :
  Forall (fun m => forall n, m <> Refresher n) schedule ->
  before_replace fs data c -> before_replace fs data (run schedule c).
Proof.
  intros Hall. revert c. induction Hall as [|m later Hm _ IH]; intros c Hc.
  - exact Hc.
  - cbn [run]. apply IH, before_replace_handler; [exact Hm|exact Hc].
Qed.

Lemma after_replace_step fs data m c :
  after_replace fs data c -> after_replace fs data (step m c).
Proof.
  intros (Hw & Hfile & Hr). destruct m as [n|n|e]; cbn [step].
  - unfold writer_step. rewrite Hw. repeat split; done.
  - destruct (reader_step_same n c) as [Hfiles Hwriter].
    split; [congruence|]. split; [congruence|].
    assert (image_now (conf_files c) = data) as Hnow
      by (unfold image_now; rewrite Hfile; reflexivity).
    unfold reader_step. rewrite Hnow.
    destruct (reader c) as [| |buffer|r|e] eqn:Hpc.
    + rewrite bool_decide_eq_true_2 by eauto. done.
    + rewrite Hfile. reflexivity.
    + destruct (drop (List.length buffer) data) as [|b more] eqn:Hmore;
        cbn [reader].
      * rewrite read_alone_run, lookup_insert_eq.
        rewrite (read_all_of_it buffer data Hr Hmore). reflexivity.
      * rewrite <- Hmore. apply read_on_in_one, Hr.
    + rewrite Hpc. exact Hr.
    + rewrite Hpc. exact Hr.
  - unfold reader_fails.
    destruct (reader c) eqn:Hpc; repeat split; cbn [writer conf_files reader];
      rewrite ?Hpc; done.
Qed.

Lemma after_replace_run fs data schedule c :
  after_replace fs data c -> after_replace fs data (run schedule c).
Proof.
  revert c. induction schedule as [|m later IH]; intros c Hc; [exact Hc|].
  cbn [run]. apply IH, after_replace_step, Hc.
Qed.

Lemma refresher_turns_keep_reader schedule c :
  Forall (fun m => exists n, m = Refresher n) schedule ->
  reader (run schedule c) = reader c.
Proof.
  intros Hall. revert c. induction Hall as [|m later [n ->] _ IH]; intros c.
  - reflexivity.
  - cbn [run step]. rewrite IH. unfold writer_step.
    destruct (writer c) as [d|[|b rest]|]; reflexivity.
Qed.

(** X10: a read that does not overlap the replace is never torn.  A read
    that has returned before line 47 runs has returned what a read alone
    returns on the old files, and keeps that result; a read whose first
    statement runs after the replace has closed the file returns what a
    read alone returns on the new file, the complete new body. *)
Theorem read_clear_of_the_replace fs data :
  (forall before later r,
     Forall (fun m => forall n, m <> Refresher n) before ->
     reader (run before (both_start fs data)) = Returned r ->
     Ok r = read_alone fs
     /\ reader (run (before ++ later) (both_start fs data)) = Returned r)
  /\ (forall before later r,
        Forall (fun m => exists n, m = Refresher n) before ->
        writer (run before (both_start fs data)) = Stored ->
        reader (run (before ++ later) (both_start fs data)) = Returned r ->
        Ok r = read_alone (<[image_path := data]> fs)).
Proof.
  split.
  - intros before later r Hbefore Hret.
    assert (before_replace fs data (run before (both_start fs data)))
      as (_ & _ & Hr).
    { apply before_replace_run; [exact Hbefore|]. repeat split. }
    rewrite Hret in Hr. split; [exact Hr|].
    rewrite run_app. apply run_keeps_result, Hret.
  - intros before later r Hbefore Hstored Hret. rewrite run_app in Hret.
    assert (after_replace fs data (run before (both_start fs data))) as Hafter.
    { destruct (reachable_shape_run fs data before _
                  (reachable_shape_start fs data)) as [Hw _].
      rewrite Hstored in Hw. repeat split; [exact Hstored|exact Hw|].
      rewrite refresher_turns_keep_reader by exact Hbefore. exact I. }
    apply (after_replace_run _ _ later) in Hafter as (_ & _ & Hr).
    rewrite Hret in Hr. exact Hr.
Qed.

(** ** The requests and the waits of the loop *)

Lemma get_gibs_image_trace env w :
  exists line,
    trace (get_gibs_image env w).1
    = (trace w ++ [Print "🚀 Iniciando o download da imagem da NASA GIBS...";
                   HttpGet (request_url env); Print line])%list.
Proof.
  rewrite get_gibs_image_run. cbv zeta.
  destruct (provider env (request_url env)) as [response|e];
    [destruct (status_code response =? 200)%Z; [destruct (disk env)|]|];
    cbn [fst trace]; eexists; reflexivity.
Qed.

(** X11: in any number of rounds the loop makes exactly one request per
    round, whatever the outcomes, each to the URL of the UTC date read in
    that round, and waits 14400 seconds exactly once per round. *)
Theorem one_request_per_round envs w :
  requests_in (trace (atualizar_periodicamente envs w).1)
  = (requests_in (trace w) ++ map request_url envs)%list
  /\ sleeps_in (trace (atualizar_periodicamente envs w).1)
     = (sleeps_in (trace w) ++ replicate (List.length envs) 14400%Z)%list.
Proof.
  revert w. induction envs as [|env later IH]; intros w.
  - cbn. rewrite !app_nil_r. done.
  - rewrite atualizar_periodicamente_cons.
    destruct (get_gibs_image_returns env w) as [b Hret].
    destruct (get_gibs_image_trace env w) as [line Htrace].
    destruct (get_gibs_image env w) as [w1 r]. cbn [fst snd] in *. subst r.
    destruct (IH (mk_world (files w1) (trace w1 ++ [Sleep 14400]))) as [Hreq Hsleep].
    rewrite Hreq, Hsleep. cbn [trace]. rewrite Htrace.
    unfold requests_in, sleeps_in. rewrite !omap_app.
    cbn [omap list_omap map List.length replicate app].
    rewrite <- !app_assoc. done.
Qed.

(** X12: the URL of a download tells its date.  For dates with four-digit
    years, two downloads request the same URL exactly when their UTC
    dates are the same day. *)
Theorem same_url_same_day env1 env2 :
  valid_date (utcnow env1) -> valid_date (utcnow env2) ->
  request_url env1 = request_url env2 <-> utcnow env1 = utcnow env2.
Proof.
  intros Hv1 Hv2. split.
  - intros Hurl.
    assert (url_param "TIME" (request_url env1)
            = url_param "TIME" (request_url env2)) as Htime by (rewrite Hurl; done).
    unfold url_param, request_url in Htime.
    rewrite !query_params_gibs_url in Htime
      by (apply occurs_strftime; vm_compute; reflexivity).
    apply (inj Some) in Htime.
    apply (f_equal strptime) in Htime.
    rewrite !strptime_strftime in Htime by assumption.
    congruence.
  - unfold request_url. intros ->. reflexivity.
Qed.

End Service.

(** ** The service on sample inputs *)

Example gibs_url_on_a_day :
  gibs_url (strftime a_day) =
  "https://gibs.earthdata.nasa.gov/wms/epsg4326/best/wms.cgi?SERVICE=WMS&REQUEST=GetMap&VERSION=1.3.0&LAYERS=VIIRS_SNPP_CorrectedReflectance_TrueColor&STYLES=&FORMAT=image/jpeg&TRANSPARENT=FALSE&HEIGHT=800&WIDTH=800&CRS=EPSG:4326&BBOX=-46.5,-17.5,-42.0,-14.0&TIME=2024-03-07".
Proof. vm_compute. reflexivity. Qed.

Example download_then_read :
  GET_image "/app" (get_gibs_image "/app" (answering 200 jpeg_header DiskOk) empty_disk).1
  = Ok (image_reply jpeg_header).
Proof. vm_compute. reflexivity. Qed.

Example two_rounds :
  sleeps_in (trace (atualizar_periodicamente "/app"
                      [answering 503 [] DiskOk; timing_out] empty_disk).1)
  = [14400; 14400]%Z.
Proof. vm_compute. reflexivity. Qed.

Example disk_full_after_200 :
  let w := (get_gibs_image "/app"
              (answering 200 jpeg_header (WriteRaises (OSError "No space left on device") 2))
              (disk_with "/app" [Byte.x01])).1 in
  files w !! image_path "/app" = Some [Byte.xff; Byte.xd8]
  /\ last (trace w) = Some (Print "❌ Erro na requisição ao GIBS: No space left on device").
Proof. vm_compute. split; reflexivity. Qed.

(** ** Witnesses and counterexamples *)



Lemma failed_download_keeps_image_witness :
  provider_fails (answering 404 [] DiskOk)
  /\ (get_gibs_image "/app" (answering 404 [] DiskOk) (disk_with "/app" jpeg_header)).2
     = Ok false
  /\ GET_image "/app"
       (get_gibs_image "/app" (answering 404 [] DiskOk) (disk_with "/app" jpeg_header)).1
     = GET_image "/app" (disk_with "/app" jpeg_header).
Proof.
  assert (provider_fails (answering 404 [] DiskOk)) as Hfail
    by (vm_compute; lia).
  split; [exact Hfail|].
  destruct (failed_download_keeps_image "/app" (answering 404 [] DiskOk)
              (disk_with "/app" jpeg_header) Hfail) as (Hret & _ & _ & Hget).
  split; [exact Hret|exact Hget].
Defined.

Lemma read_before_first_success_witness :
  Forall provider_fails [answering 500 [] DiskOk; timing_out]
  /\ GET_image "/app"
       (atualizar_periodicamente "/app" [answering 500 [] DiskOk; timing_out]
          (disk_with "/app" jpeg_header)).1
     = Ok (image_reply jpeg_header).
Proof.
  assert (Forall provider_fails [answering 500 [] DiskOk; timing_out]) as Hall.
  { repeat constructor. vm_compute. lia. }
  split; [exact Hall|].
  exact (read_before_first_success "/app" _ (disk_with "/app" jpeg_header) Hall).
Defined.

(** C3 as stated fails: the process has just started, no download has run,
    a file of an earlier run is on disk, and the read serves that file
    instead of the not-available reply. *)
Lemma stale_file_is_served :
  trace (disk_with "/app" jpeg_header) = []
  /\ GET_image "/app" (disk_with "/app" jpeg_header) = Ok (image_reply jpeg_header)
  /\ GET_image "/app" (disk_with "/app" jpeg_header) <> Ok not_available.
Proof.
  repeat split; try (vm_compute; reflexivity).
  vm_compute. intros H; discriminate H.
Qed.



Lemma stored_image_is_served_witness :
  provider (answering 200 jpeg_header DiskOk)
    (request_url (answering 200 jpeg_header DiskOk))
  = Ok (mk_response 200 jpeg_header)
  /\ (get_gibs_image "/app" (answering 200 jpeg_header DiskOk)
        (disk_with "/app" [Byte.x01])).2 = Ok true
  /\ GET_image "/app"
       (get_gibs_image "/app" (answering 200 jpeg_header DiskOk)
          (disk_with "/app" [Byte.x01])).1
     = Ok (mk_reply 200 "image/jpeg" (Raw jpeg_header)).
Proof.
  assert ((get_gibs_image "/app" (answering 200 jpeg_header DiskOk)
             (disk_with "/app" [Byte.x01])).2 = Ok true) as Hret
    by (vm_compute; reflexivity).
  split; [reflexivity|]. split; [exact Hret|].
  exact (proj2 (stored_image_is_served "/app" (answering 200 jpeg_header DiskOk)
                  (disk_with "/app" [Byte.x01]) (mk_response 200 jpeg_header)
                  eq_refl Hret)).
Defined.


Lemma request_url_encodes_witness :
  valid_date (utcnow timing_out)
  /\ url_param "TIME" (request_url timing_out) = Some "2024-03-07"
  /\ strptime "2024-03-07" = Some (mk_datetime 2024 3 7).
Proof.
  assert (valid_date (utcnow timing_out)) as Hvalid
    by (vm_compute; repeat split; discriminate).
  destruct (request_url_encodes "/app" timing_out empty_disk Hvalid)
    as (_ & _ & _ & _ & _ & _ & Htime & _ & Hback).
  split; [exact Hvalid|]. split; [exact Htime|exact Hback].
Defined.


(** C10 as stated fails, twice over.  The provider answers 200, [open]
    raises, the exception is caught and the function returns [False], not
    [True]; and with a standard output that is a broken pipe the [print] of
    line 29 raises before the [try] is entered and the exception leaves
    the function. *)
Lemma false_on_200_and_print_escapes :
  provider_200 (answering 200 jpeg_header (OpenRaises (OSError "Permission denied")))
  /\ (get_gibs_image "/app"
        (answering 200 jpeg_header (OpenRaises (OSError "Permission denied")))
        empty_disk).2 = Ok false
  /\ (get_gibs_image_on "/app" broken_stdout
        (answering 200 jpeg_header DiskOk) empty_disk).2
     = Raise (OSError "[Errno 32] Broken pipe").
Proof.
  split; [|split; vm_compute; reflexivity].
  eexists. split; vm_compute; reflexivity.
Qed.

Lemma get_gibs_image_exceptions_witness :
  (forall line, working_stdout line = None)
  /\ exists b,
       (get_gibs_image_on "/app" working_stdout timing_out empty_disk).2 = Ok b
       /\ (b = true <-> provider_200 timing_out /\ disk timing_out = DiskOk)
       /\ ((get_gibs_image_on "/app" working_stdout timing_out;;
            time_sleep (4 * 3600)) empty_disk).2 = Ok tt.
Proof.
  assert (forall line, working_stdout line = None) as Hout by reflexivity.
  split; [exact Hout|].
  exact (proj1 (proj2 (get_gibs_image_exceptions "/app" working_stdout
                         timing_out empty_disk)) Hout).
Defined.

(** ** Witnesses of the further properties *)

Lemma only_the_image_file_changes_witness :
  "/app/frontend/index.html" <> image_path "/app"
  /\ files (atualizar_periodicamente "/app"
              [answering 200 jpeg_header DiskOk; timing_out]
              (mk_world {["/app/frontend/index.html" := [Byte.x3c]]} [])).1
       !! "/app/frontend/index.html" = Some [Byte.x3c].
Proof.
  assert ("/app/frontend/index.html" <> image_path "/app") as Hp
    by (vm_compute; discriminate).
  split; [exact Hp|].
  exact (proj2 (only_the_image_file_changes "/app"
                  [answering 200 jpeg_header DiskOk; timing_out] timing_out
                  (mk_world {["/app/frontend/index.html" := [Byte.x3c]]} [])
                  "/app/frontend/index.html" Hp)).
Defined.

Lemma image_never_goes_away_witness :
  is_Some (files (disk_with "/app" jpeg_header) !! image_path "/app")
  /\ exists data,
       files (atualizar_periodicamente "/app"
                [answering 200 [] (WriteRaises (OSError "No space left on device") 0);
                 timing_out]
                (disk_with "/app" jpeg_header)).1 !! image_path "/app" = Some data
       /\ GET_image "/app"
            (atualizar_periodicamente "/app"
               [answering 200 [] (WriteRaises (OSError "No space left on device") 0);
                timing_out]
               (disk_with "/app" jpeg_header)).1 = Ok (image_reply data).
Proof.
  assert (is_Some (files (disk_with "/app" jpeg_header) !! image_path "/app"))
    as Hsome by (vm_compute; eauto).
  split; [exact Hsome|].
  exact (image_never_goes_away "/app" _ (disk_with "/app" jpeg_header) Hsome).
Defined.

Lemma open_failure_keeps_image_witness :
  provider_200 (answering 200 [Byte.x02] (OpenRaises (OSError "Permission denied")))
  /\ GET_image "/app"
       (get_gibs_image "/app"
          (answering 200 [Byte.x02] (OpenRaises (OSError "Permission denied")))
          (disk_with "/app" [Byte.x01])).1
     = GET_image "/app" (disk_with "/app" [Byte.x01]).
Proof.
  assert (provider_200
            (answering 200 [Byte.x02] (OpenRaises (OSError "Permission denied"))))
    as H200 by (eexists; split; vm_compute; reflexivity).
  split; [exact H200|].
  exact (proj2 (proj2 (open_failure_keeps_image "/app" _
                         (disk_with "/app" [Byte.x01]) _ H200 eq_refl))).
Defined.

Lemma write_failure_truncates_image_witness :
  status_code (mk_response 200 jpeg_header) = 200%Z
  /\ GET_image "/app"
       (get_gibs_image "/app"
          (answering 200 jpeg_header (WriteRaises (OSError "No space left on device") 2))
          (disk_with "/app" [Byte.x01])).1
     = Ok (image_reply [Byte.xff; Byte.xd8]).
Proof.
  split; [reflexivity|].
  exact (proj2 (write_failure_truncates_image "/app"
                  (answering 200 jpeg_header
                     (WriteRaises (OSError "No space left on device") 2))
                  (disk_with "/app" [Byte.x01]) (mk_response 200 jpeg_header)
                  (OSError "No space left on device") 2 eq_refl eq_refl eq_refl)).
Defined.

Lemma last_success_is_served_witness :
  Forall provider_fails [answering 503 [] DiskOk; timing_out]
  /\ GET_image "/app"
       (atualizar_periodicamente "/app"
          ([answering 200 [Byte.x01] DiskOk; timing_out]
           ++ answering 200 jpeg_header DiskOk
              :: [answering 503 [] DiskOk; timing_out])
          empty_disk).1
     = Ok (image_reply jpeg_header).
Proof.
  assert (Forall provider_fails [answering 503 [] DiskOk; timing_out]) as Hlater.
  { repeat constructor. vm_compute. lia. }
  split; [exact Hlater|].
  exact (last_success_is_served "/app"
           [answering 200 [Byte.x01] DiskOk; timing_out]
           (answering 200 jpeg_header DiskOk)
           [answering 503 [] DiskOk; timing_out] empty_disk
           (mk_response 200 jpeg_header) eq_refl eq_refl eq_refl Hlater).
Defined.

Lemma requests_beside_the_loop_witness :
  handlers (sys_run "/app"
              [RequestThread 0 0; RefreshThread 0; RefreshThread 0;
               RequestThread 0 0; RefreshThread 9;
               RequestFails 1 (OSError "[Errno 24] Too many open files");
               RequestThread 0 9; RefreshThread 0; RequestThread 0 0]
              (sys_start (files (disk_with "/app" [Byte.x01]))
                 [answering 200 jpeg_header DiskOk] 2)) !! 1%nat
  = Some (Raised (OSError "[Errno 24] Too many open files"))
  /\ RequestFails 1 (OSError "[Errno 24] Too many open files")
     ∈ [RequestThread 0 0; RefreshThread 0; RefreshThread 0;
        RequestThread 0 0; RefreshThread 9;
        RequestFails 1 (OSError "[Errno 24] Too many open files");
        RequestThread 0 9; RefreshThread 0; RequestThread 0 0].
Proof.
  assert (handlers (sys_run "/app"
              [RequestThread 0 0; RefreshThread 0; RefreshThread 0;
               RequestThread 0 0; RefreshThread 9;
               RequestFails 1 (OSError "[Errno 24] Too many open files");
               RequestThread 0 9; RefreshThread 0; RequestThread 0 0]
              (sys_start (files (disk_with "/app" [Byte.x01]))
                 [answering 200 jpeg_header DiskOk] 2)) !! 1%nat
          = Some (Raised (OSError "[Errno 24] Too many open files"))) as Hrd
    by (vm_compute; reflexivity).
  split; [exact Hrd|].
  exact (proj1 (requests_beside_the_loop "/app" _ _ _ _ _ _ Hrd) _ eq_refl).
Defined.

Example request_beside_a_replace :
  handlers (sys_run "/app"
              [RequestThread 0 0; RefreshThread 0; RefreshThread 0;
               RequestThread 0 0; RefreshThread 9;
               RequestFails 1 (OSError "[Errno 24] Too many open files");
               RequestThread 0 9; RefreshThread 0; RequestThread 0 0]
              (sys_start (files (disk_with "/app" [Byte.x01]))
                 [answering 200 jpeg_header DiskOk] 2)) !! 0%nat
  = Some (Returned (Response jpeg_header "image/jpeg")).
Proof. vm_compute. reflexivity. Qed.

Lemma read_clear_of_the_replace_witness :
  Forall (fun m => forall n, m <> Refresher n)
    [Handler 0; Handler 0; Handler 9; Handler 0]
  /\ reader (run "/app" [Handler 0; Handler 0; Handler 9; Handler 0]
               (both_start (files (disk_with "/app" [Byte.x01; Byte.x02]))
                  [Byte.x03; Byte.x04]))
     = Returned (Response [Byte.x01; Byte.x02] "image/jpeg")
  /\ Ok (Response [Byte.x01; Byte.x02] "image/jpeg")
     = read_alone "/app" (files (disk_with "/app" [Byte.x01; Byte.x02]))
  /\ reader (run "/app"
               ([Handler 0; Handler 0; Handler 9; Handler 0]
                ++ [Refresher 0; Refresher 0; Handler 3])
               (both_start (files (disk_with "/app" [Byte.x01; Byte.x02]))
                  [Byte.x03; Byte.x04]))
     = Returned (Response [Byte.x01; Byte.x02] "image/jpeg").
Proof.
  assert (Forall (fun m => forall n, m <> Refresher n)
            [Handler 0; Handler 0; Handler 9; Handler 0]) as Hbefore
    by (repeat constructor; discriminate).
  assert (reader (run "/app" [Handler 0; Handler 0; Handler 9; Handler 0]
               (both_start (files (disk_with "/app" [Byte.x01; Byte.x02]))
                  [Byte.x03; Byte.x04]))
          = Returned (Response [Byte.x01; Byte.x02] "image/jpeg")) as Hret
    by (vm_compute; reflexivity).
  split; [exact Hbefore|]. split; [exact Hret|].
  exact (proj1 (read_clear_of_the_replace "/app" _ _) _
           [Refresher 0; Refresher 0; Handler 3] _ Hbefore Hret).
Defined.

Lemma same_url_same_day_witness :
  valid_date (utcnow timing_out)
  /\ valid_date (utcnow (answering 200 [] DiskOk))
  /\ (request_url timing_out = request_url (answering 200 [] DiskOk)
      <-> utcnow timing_out = utcnow (answering 200 [] DiskOk)).
Proof.
  assert (valid_date (utcnow timing_out)) as Hv1
    by (vm_compute; repeat split; discriminate).
  assert (valid_date (utcnow (answering 200 [] DiskOk))) as Hv2
    by (vm_compute; repeat split; discriminate).
  split; [exact Hv1|]. split; [exact Hv2|].
  exact (same_url_same_day timing_out (answering 200 [] DiskOk) Hv1 Hv2).
Defined.

Example port_examples :
  let int_of_str s := Z.of_N <$> (if String.eqb s "" then None else number_of s 0) in
  port int_of_str ∅ = Some 8000%Z
  /\ port int_of_str {["PORT" := "0"]} = Some 8000%Z
  /\ port int_of_str {["PORT" := "10000"]} = Some 10000%Z
  /\ port int_of_str {["PORT" := ""]} = None
  /\ port int_of_str {["PORT" := "http"]} = None.
Proof. vm_compute. repeat split; reflexivity. Qed.
